(** * Offers365: the product-resolution pipeline of the /api/product route

    Two versions of the route module exist in the repository:
    - [Rich]   : src/server/routes.ts (richer metadata, explicit secondary table)
    - [Simple] : src/unnamed/part_006 (simpler metadata, encoded secondary URLs)

    Strings are Stdlib [string]s of 8-bit code units; network calls are
    modelled by oracles giving every possible outcome, and by a trace of the
    calls made. *)

From Stdlib Require Import String Ascii List Bool Arith Lia ZArith QArith.
From Stdlib Require Import Sorting.Permutation Sorting.Sorted Qround Qabs Qpower DecimalString Lqa.
Import ListNotations.
Open Scope nat_scope.
Open Scope list_scope.
Open Scope string_scope.

Inductive variant := Rich | Simple.

(** ** JavaScript helpers on strings *)
Module Js.

(** Truthiness of a [string] (the empty string is falsy). *)
Definition truthy_str (s : string) : bool := negb (String.eqb s "").

(** Truthiness of a [string | null]. *)
Definition truthy (o : option string) : bool :=
  match o with Some s => truthy_str s | None => false end.

(** [a || d] for [a : string | null] and a string default [d]. *)
Definition or_default (o : option string) (d : string) : string :=
  match o with Some s => if truthy_str s then s else d | None => d end.

(** [s.includes(t)] *)
Fixpoint includes (s t : string) : bool :=
  String.prefix t s ||
  match s with EmptyString => false | String _ s' => includes s' t end.

(** [s.startsWith(t)] *)
Definition startsWith (s t : string) : bool := String.prefix t s.

End Js.

(** ** Affiliate links: generateAffiliateLink and generateAllOffers *)
Module Offers.

Record OfferItem := { name : string; link : string; success : bool }.

(** A call trace: each call to generateAffiliateLink with its result. *)
Definition trace := list (string * option string).

(** The affiliate API: the result of the [k]-th call of generateAffiliateLink
    on a source URL.  Every network failure, error payload, empty
    [promotion_links] or exception is caught by generateAffiliateLink and
    becomes [None] ([null]); otherwise the first [promotion_link]. *)
Definition oracle := nat -> string -> option string.

Definition generateAffiliateLink (o : oracle) (url : string) (t : trace)
  : option string * trace :=
  let r := o (List.length t) url in (r, (t ++ [(url, r)])%list).

Definition offersPrimary (productId : string) : list (string * string) :=
  [ ("Coin Page Offer",
     "https://m.aliexpress.com/p/coin-index/index.html?_immersiveMode=true&productIds=" ++ productId);
    ("Direct Product Link",
     "https://www.aliexpress.com/item/" ++ productId ++ ".html?sourceType=620");
    ("Super Deals",
     "https://www.aliexpress.com/item/" ++ productId ++ ".html?sourceType=562");
    ("Big Save Discount",
     "https://www.aliexpress.com/item/" ++ productId ++ ".html?sourceType=680");
    ("Limited Discount",
     "https://www.aliexpress.com/item/" ++ productId ++ ".html?sourceType=561");
    ("Potential Discount",
     "https://www.aliexpress.com/item/" ++ productId ++ ".html?sourceType=504");
    ("Bundle Direct",
     "https://www.aliexpress.com/item/" ++ productId ++ ".html?sourceType=570");
    ("Bundle Deals Page",
     "https://www.aliexpress.com/ssr/300000512/BundleDeals2?&pha_manifest=ssr&productIds=" ++ productId) ].

(** routes.ts: the explicit [offersSecondary] table. *)
Definition offersSecondary (productId : string) : list (string * string) :=
  [ ("Coin Page Offer",
     "https://star.aliexpress.com/share/share.htm?redirectUrl=https://m.aliexpress.com/p/coin-index/index.html?_immersiveMode=true&productIds=" ++ productId);
    ("Direct Product Link",
     "https://star.aliexpress.com/share/share.htm?redirectUrl=https://www.aliexpress.com/item/" ++ productId ++ ".html?sourceType=620");
    ("Super Deals",
     "https://star.aliexpress.com/share/share.htm?redirectUrl=https://www.aliexpress.com/item/" ++ productId ++ ".html?sourceType=562");
    ("Big Save Discount",
     "https://star.aliexpress.com/share/share.htm?redirectUrl=https://www.aliexpress.com/item/" ++ productId ++ ".html?sourceType=680");
    ("Limited Discount",
     "https://star.aliexpress.com/share/share.htm?redirectUrl=https://www.aliexpress.com/item/" ++ productId ++ ".html?sourceType=561");
    ("Potential Discount",
     "https://star.aliexpress.com/share/share.htm?redirectUrl=https://www.aliexpress.com/item/" ++ productId ++ ".html?sourceType=504");
    ("Bundle Direct",
     "https://star.aliexpress.com/share/share.htm?redirectUrl=https://www.aliexpress.com/item/" ++ productId ++ ".html?sourceType=570");
    ("Bundle Deals Page",
     "https://star.aliexpress.com/share/share.htm?redirectUrl=https://www.aliexpress.com/ssr/300000512/BundleDeals2?&pha_manifest=ssr&productIds=" ++ productId) ].

(** [encodeURIComponent] on 8-bit code units: the unreserved characters are
    kept, every other unit is percent-encoded as its UTF-8 bytes. *)
Definition hex_digit (n : nat) : ascii :=
  match n with
  | 0 => "0" | 1 => "1" | 2 => "2" | 3 => "3" | 4 => "4" | 5 => "5"
  | 6 => "6" | 7 => "7" | 8 => "8" | 9 => "9" | 10 => "A" | 11 => "B"
  | 12 => "C" | 13 => "D" | 14 => "E" | _ => "F"
  end%char.

Definition pct (n : nat) : string :=
  String "%" (String (hex_digit (n / 16)) (String (hex_digit (n mod 16)) "")).

Definition uri_unreserved (c : ascii) : bool :=
  let n := nat_of_ascii c in
  (Nat.leb 65 n && Nat.leb n 90) || (Nat.leb 97 n && Nat.leb n 122) ||
  (Nat.leb 48 n && Nat.leb n 57) ||
  existsb (fun d => Ascii.eqb d c) ["-"; "_"; "."; "!"; "~"; "*"; "'"; "("; ")"]%char.

Fixpoint encodeURIComponent (s : string) : string :=
  match s with
  | EmptyString => EmptyString
  | String c s' =>
      let n := nat_of_ascii c in
      (if uri_unreserved c then String c EmptyString
       else if Nat.ltb n 128 then pct n
       else pct (192 + n / 64) ++ pct (128 + n mod 64))
      ++ encodeURIComponent s'
  end.

(** part_006: [offersPrimary.map(offer => share-redirect ++ encodeURIComponent(offer.url))]. *)
Definition offersSecondarySimple (productId : string) : list string :=
  map (fun '(_, url) =>
         "https://star.aliexpress.com/share/share.htm?redirectUrl=" ++ encodeURIComponent url)
      (offersPrimary productId).

(** The secondary URL used for offer [i]. *)
Definition secondary (v : variant) (productId : string) : list string :=
  match v with
  | Rich => map snd (offersSecondary productId)
  | Simple => offersSecondarySimple productId
  end.

(** The loop body and the loop of generateAllOffers, over the zipped tables
    [(name, primary url, secondary url)]. *)
Fixpoint offers_loop (o : oracle) (tbl : list (string * string * string)) (t : trace)
  : list OfferItem * trace :=
  match tbl with
  | [] => ([], t)
  | (nm, url, sec) :: rest =>
      let '(a1, t1) := generateAffiliateLink o url t in
      let '(a2, t2) :=
        if Js.truthy a1 then (a1, t1) else generateAffiliateLink o sec t1 in
      let item := {| name := nm; link := Js.or_default a2 url;
                     success := Js.truthy a2 |} in
      let '(items, t3) := offers_loop o rest t2 in
      (item :: items, t3)
  end.

Definition table (v : variant) (productId : string) : list (string * string * string) :=
  combine (offersPrimary productId) (secondary v productId).

Definition generateAllOffers (v : variant) (o : oracle) (productId : string) (t : trace)
  : list OfferItem * trace :=
  offers_loop o (table v productId) t.

Definition offer_names : list string :=
  ["Coin Page Offer"; "Direct Product Link"; "Super Deals"; "Big Save Discount";
   "Limited Discount"; "Potential Discount"; "Bundle Direct"; "Bundle Deals Page"].

(** The share-redirect wrapper around a target URL. *)
Definition share_wrap (v : variant) (url : string) : string :=
  "https://star.aliexpress.com/share/share.htm?redirectUrl=" ++
  match v with Rich => url | Simple => encodeURIComponent url end.

(** The per-offer behaviour the spec describes: one primary attempt; a
    secondary attempt (on the share-redirect URL) exactly when the primary
    yields no link; the offer is recorded in every case. *)
Inductive OfferAttempt (nm url sec : string) : trace -> OfferItem -> Prop :=
| attempt_primary r :
    Js.truthy r = true ->
    OfferAttempt nm url sec [(url, r)]
      {| name := nm; link := Js.or_default r url; success := true |}
| attempt_secondary r1 r2 :
    Js.truthy r1 = false ->
    OfferAttempt nm url sec [(url, r1); (sec, r2)]
      {| name := nm; link := Js.or_default r2 url; success := Js.truthy r2 |}.

(** [OfferAttempt] along a whole table, one trace block per offer. *)
Inductive Attempts : list (string * string * string) -> list trace -> list OfferItem -> Prop :=
| attempts_nil : Attempts [] [] []
| attempts_cons nm url sec rest b bs it its :
    OfferAttempt nm url sec b it -> Attempts rest bs its ->
    Attempts ((nm, url, sec) :: rest) (b :: bs) (it :: its).

(** Every recorded call result is the oracle's answer to that call. *)
Definition consistent (o : oracle) (t : trace) : Prop :=
  forall k u r, nth_error t k = Some (u, r) -> r = o k u.

End Offers.

(** ** generateApiSignature *)
Module Signature.

(** A [Record<string, string>]: its own enumerable properties in creation
    order; keys of a JS object are pairwise distinct. *)
Definition params := list (string * string).

(** [params[key]] (a missing key reads [undefined]). *)
Fixpoint lookup (k : string) (p : params) : option string :=
  match p with
  | [] => None
  | (k', v) :: p' => if String.eqb k k' then Some v else lookup k p'
  end.

Definition index (p : params) (k : string) : string :=
  match lookup k p with Some v => v | None => "undefined" end.

(** [Array.prototype.sort()] without comparator: ascending by code units. *)
Fixpoint insert (x : string) (l : list string) : list string :=
  match l with
  | [] => [x]
  | y :: l' => if String.leb x y then x :: y :: l' else y :: insert x l'
  end.

Fixpoint sort (l : list string) : list string :=
  match l with [] => [] | x :: l' => insert x (sort l') end.

(** [digest("hex")]: two lower-case hex digits per byte. *)
Definition hex_lower (n : nat) : ascii :=
  match n with
  | 0 => "0" | 1 => "1" | 2 => "2" | 3 => "3" | 4 => "4" | 5 => "5"
  | 6 => "6" | 7 => "7" | 8 => "8" | 9 => "9" | 10 => "a" | 11 => "b"
  | 12 => "c" | 13 => "d" | 14 => "e" | _ => "f"
  end%char.

Fixpoint hex (d : list Byte.byte) : string :=
  match d with
  | [] => ""
  | b :: d' =>
      let n := Byte.to_nat b in
      String (hex_lower (n / 16)) (String (hex_lower (n mod 16)) (hex d'))
  end.

(** [toUpperCase()] on ASCII letters. *)
Definition upper_char (c : ascii) : ascii :=
  let n := nat_of_ascii c in
  if Nat.leb 97 n && Nat.leb n 122 then ascii_of_nat (n - 32) else c.

Fixpoint toUpperCase (s : string) : string :=
  match s with
  | EmptyString => EmptyString
  | String c s' => String (upper_char c) (toUpperCase s')
  end.

Section WithHmac.
(** [crypto.createHmac("sha256", secret).update(msg).digest()]. *)
Variable hmac_sha256 : string -> string -> list Byte.byte.

Definition generateApiSignature (p : params) (secret : string) : string :=
  let sortedKeys := sort (map fst p) in
  let paramString := String.concat "" (map (fun key => key ++ index p key) sortedKeys) in
  toUpperCase (hex (hmac_sha256 secret paramString)).

End WithHmac.

(** The signing string the spec describes, over the entries in key order. *)
Definition concat_pairs (entries : params) : string :=
  String.concat "" (map (fun '(k, v) => k ++ v) entries).

Definition key_lt (a b : string * string) : Prop := String.ltb (fst a) (fst b) = true.

End Signature.

(** ** Regular expressions used by the route module

    Each regular expression of the source is translated into a matcher that
    follows ECMAScript backtracking: greedy quantifiers try the longest run
    first, lazy ones the shortest, alternatives left to right.  A matcher
    reads the input from a position, given as the preceding character (for
    [\b]) and the rest of the string. *)
Module Re.

Definition code (c : ascii) : nat := nat_of_ascii c.

Definition in_range (lo hi : nat) (c : ascii) : bool :=
  Nat.leb lo (code c) && Nat.leb (code c) hi.

(** [\d] *)
Definition is_digit (c : ascii) : bool := in_range 48 57 c.

(** [\w]: the word characters of [\b]. *)
Definition is_word (c : ascii) : bool :=
  in_range 65 90 c || in_range 97 122 c || is_digit c || Ascii.eqb c "_".

(** The line terminators, which [.] does not match. *)
Definition is_line_terminator (c : ascii) : bool :=
  Ascii.eqb c (ascii_of_nat 10) || Ascii.eqb c (ascii_of_nat 13).

(** [s] without the prefix [p], when [p] is a prefix of [s]. *)
Fixpoint strip_prefix (p s : string) : option string :=
  match p, s with
  | EmptyString, _ => Some s
  | String a p', String b s' => if Ascii.eqb a b then strip_prefix p' s' else None
  | String _ _, EmptyString => None
  end.

(** The maximal prefix of [s] whose characters satisfy [cls], and the rest. *)
Fixpoint span (cls : ascii -> bool) (s : string) : string * string :=
  match s with
  | String c s' =>
      if cls c then let '(a, r) := span cls s' in (String c a, r) else ("", s)
  | EmptyString => ("", "")
  end.

(** The first [n] characters of [s], and the rest. *)
Fixpoint take (n : nat) (s : string) : string :=
  match n, s with
  | S n', String c s' => String c (take n' s')
  | _, _ => EmptyString
  end.

Fixpoint drop (n : nat) (s : string) : string :=
  match n, s with
  | S n', String _ s' => drop n' s'
  | _, _ => s
  end.

(** Backtracking over the run length of a greedy quantifier: lengths [n],
    [n-1], ..., each accepted when at least [min], until the continuation
    [k] (given the run read and the rest of the input) succeeds. *)
Fixpoint greedy_loop {A} (min : nat) (k : string -> string -> option A)
  (run rest : string) (n : nat) : option A :=
  match (if Nat.leb min n then k (take n run) (drop n run ++ rest) else None) with
  | Some x => Some x
  | None => match n with 0 => None | S n' => greedy_loop min k run rest n' end
  end.

(** [cls{min,max}] followed by [k], greedy ([max = None]: unbounded). *)
Definition greedy {A} (cls : ascii -> bool) (min : nat) (max : option nat)
  (k : string -> string -> option A) (s : string) : option A :=
  let '(run, rest) := span cls s in
  let top := match max with
             | Some m => Nat.min m (String.length run)
             | None => String.length run
             end in
  greedy_loop min k run rest top.

(** [.*?] followed by [k]: the shortest run first. *)
Fixpoint lazy_dot {A} (k : string -> option A) (s : string) : option A :=
  match k s with
  | Some x => Some x
  | None =>
      match s with
      | String c s' => if is_line_terminator c then None else lazy_dot k s'
      | EmptyString => None
      end
  end.

(** [String.prototype.match] with a non-global pattern: the first position,
    from the left, where the matcher succeeds. *)
Fixpoint search_from {A} (m : option ascii -> string -> option A)
  (prev : option ascii) (s : string) : option A :=
  match m prev s with
  | Some x => Some x
  | None =>
      match s with
      | String c s' => search_from m (Some c) s'
      | EmptyString => None
      end
  end.

Definition search {A} (m : option ascii -> string -> option A) (s : string) : option A :=
  search_from m None s.

(** [(\d+)] at the end of a pattern, as capture. *)
Definition digits_capture (s : string) : option string :=
  greedy is_digit 1 None (fun d _ => Some d) s.

(** [[?&]] *)
Definition q_or_amp (c : ascii) : bool := Ascii.eqb c "?" || Ascii.eqb c "&".

(** [[?&]productIds?=(\d+)] at the start of [s]. *)
Definition at_productIds_opt (s : string) : option string :=
  match s with
  | String c r =>
      if q_or_amp c then
        match strip_prefix "productId" r with
        | Some r1 =>
            let eq_digits r2 := match strip_prefix "=" r2 with
                                | Some r3 => digits_capture r3 | None => None end in
            match (match strip_prefix "s" r1 with Some r2 => eq_digits r2 | None => None end) with
            | Some x => Some x
            | None => eq_digits r1
            end
        | None => None
        end
      else None
  | EmptyString => None
  end.

(** [[?&]<lit>(\d+)] at the start of [s], for a literal [lit]. *)
Definition at_amp_lit_digits (lit s : string) : option string :=
  match s with
  | String c r =>
      if q_or_amp c then
        match strip_prefix lit r with Some r1 => digits_capture r1 | None => None end
      else None
  | EmptyString => None
  end.

(** [\/item\/(\d+)\.(?:html|htm)] *)
Definition at_item_html (s : string) : option string :=
  match strip_prefix "/item/" s with
  | Some r =>
      greedy is_digit 1 None
        (fun d rest => match strip_prefix "." rest with
                       | Some r2 =>
                           if String.prefix "html" r2 || String.prefix "htm" r2
                           then Some d else None
                       | None => None end) r
  | None => None
  end.

(** [\/item\/(\d+)(?:\?|$)] *)
Definition at_item_end (s : string) : option string :=
  match strip_prefix "/item/" s with
  | Some r =>
      greedy is_digit 1 None
        (fun d rest => if String.prefix "?" rest || String.eqb rest "" then Some d else None) r
  | None => None
  end.

(** [\/<lit>\/(\d+)], e.g. [\/product\/(\d+)] and [\/i\/(\d+)] *)
Definition at_lit_digits (lit s : string) : option string :=
  match strip_prefix lit s with Some r => digits_capture r | None => None end.

Definition not_slash (c : ascii) : bool := negb (Ascii.eqb c "/").

(** [\/p\/[^/]+\/index\.html] followed by [k] *)
Definition at_p_index (k : string -> option string) (s : string) : option string :=
  match strip_prefix "/p/" s with
  | Some r =>
      greedy not_slash 1 None
        (fun _ rest => match strip_prefix "/index.html" rest with
                       | Some r2 => k r2 | None => None end) r
  | None => None
  end.

(** [\/ssr\/.*?] followed by [k] *)
Definition at_ssr (k : string -> option string) (s : string) : option string :=
  match strip_prefix "/ssr/" s with
  | Some r => lazy_dot k r
  | None => None
  end.

Definition lower_or_digit (c : ascii) : bool := in_range 97 122 c || is_digit c.

(** [\/[a-z0-9]+\.html\?.*?productId(?:s)?=(\d+)] *)
Definition at_html_query (s : string) : option string :=
  match strip_prefix "/" s with
  | Some r =>
      greedy lower_or_digit 1 None
        (fun _ rest =>
           match strip_prefix ".html?" rest with
           | Some r2 =>
               lazy_dot
                 (fun r3 =>
                    match strip_prefix "productId" r3 with
                    | Some r4 =>
                        let eq_digits r5 := match strip_prefix "=" r5 with
                                            | Some r6 => digits_capture r6 | None => None end in
                        match (match strip_prefix "s" r4 with
                               | Some r5 => eq_digits r5 | None => None end) with
                        | Some x => Some x
                        | None => eq_digits r4
                        end
                    | None => None
                    end) r2
           | None => None
           end) r
  | None => None
  end.

(** [\b\d{10,20}\b] *)
Definition boundary (prev : option ascii) (s : string) : bool :=
  let w1 := match prev with Some c => is_word c | None => false end in
  let w2 := match s with String c _ => is_word c | EmptyString => false end in
  xorb w1 w2.

Definition at_long_number (prev : option ascii) (s : string) : option string :=
  if boundary prev s then
    greedy is_digit 10 (Some 20)
      (fun d rest =>
         let last := match String.get (String.length d - 1) d with
                     | Some c => Some c | None => prev end in
         if boundary last rest then Some d else None) s
  else None.

(** The URL pattern
    [https?:\/\/(?:[a-zA-Z]|[0-9]|[$-_@.&+]|[!*\(\),]|(?:%[0-9a-fA-F][0-9a-fA-F]))+] *)
Definition url_char (c : ascii) : bool :=
  in_range 65 90 c || in_range 97 122 c || is_digit c || in_range 36 95 c ||
  existsb (fun d => Ascii.eqb d c) ["@"; "."; "&"; "+"; "!"; "*"; "("; ")"; ","]%char.

Definition is_hex (c : ascii) : bool :=
  is_digit c || in_range 97 102 c || in_range 65 70 c.

(** One iteration of the group: its alternatives in order; the length read. *)
Definition url_step (s : string) : option nat :=
  match s with
  | String c r =>
      if url_char c then Some 1
      else match r with
           | String h1 (String h2 _) =>
               if Ascii.eqb c "%" && is_hex h1 && is_hex h2 then Some 3 else None
           | _ => None
           end
  | EmptyString => None
  end.

(** The group under [+]: with nothing after it, the greedy loop stops at the
    first position where no alternative applies. *)
Fixpoint url_body (fuel : nat) (s : string) : nat :=
  match fuel with
  | 0 => 0
  | S fuel' =>
      match url_step s with
      | Some n => n + url_body fuel' (drop n s)
      | None => 0
      end
  end.

(** Length of the URL match at the start of [s]. *)
Definition at_url (s : string) : option nat :=
  let scheme := match strip_prefix "https://" s with
                | Some r => Some (8, r)
                | None => match strip_prefix "http://" s with
                          | Some r => Some (7, r) | None => None end
                end in
  match scheme with
  | Some (k, r) =>
      let n := url_body (String.length r) r in
      if Nat.eqb n 0 then None else Some (k + n)
  | None => None
  end.

(** [text.match(urlPattern)] with the global flag: every match, left to
    right, the scan resuming after each match. *)
Fixpoint match_all_urls (fuel : nat) (s : string) : list string :=
  match fuel with
  | 0 => []
  | S fuel' =>
      match s with
      | EmptyString => []
      | String _ s' =>
          match at_url s with
          | Some n => take n s :: match_all_urls fuel' (drop n s)
          | None => match_all_urls fuel' s'
          end
      end
  end.

End Re.

(** ** extractProductId *)
Module Extract.
Import Re.

Definition is_aliexpress (u : string) : bool :=
  Js.includes u "aliexpress.com" || Js.includes u "alix.live" ||
  Js.includes u "s.click.aliexpress.com".

(** The first pattern that matches, in list order. *)
Fixpoint first_match (pats : list (string -> option string)) (s : string) : option string :=
  match pats with
  | [] => None
  | p :: ps => match search (fun _ r => p r) s with
               | Some x => Some x
               | None => first_match ps s
               end
  end.

(** routes.ts: [urlPatterns]. *)
Definition urlPatterns : list (string -> option string) :=
  [ at_productIds_opt;
    at_item_html;
    at_item_end;
    at_lit_digits "/product/";
    at_lit_digits "/i/";
    at_p_index at_productIds_opt;
    at_ssr (fun r => search (fun _ r' => at_productIds_opt r') r);
    at_html_query ].

(** routes.ts: the first URL of the text on an AliExpress domain, else the
    whole text. *)
Definition targetUrl (text : string) : string :=
  let urls := match_all_urls (String.length text) text in
  Js.or_default (find is_aliexpress urls) text.

(** routes.ts *)
Definition extractProductId_rich (text : string) : option string :=
  match first_match urlPatterns (targetUrl text) with
  | Some id => Some id
  | None => search at_long_number text
  end.

(** part_006: [patterns]. *)
Definition patterns_simple : list (string -> option string) :=
  [ at_amp_lit_digits "productIds=";
    at_amp_lit_digits "productId=";
    at_item_html;
    at_item_end;
    at_lit_digits "/product/";
    at_lit_digits "/i/";
    at_p_index (at_amp_lit_digits "productIds=");
    at_ssr (fun r => search (fun _ r' => at_amp_lit_digits "productIds=" r') r);
    at_html_query ].

(** part_006 *)
Definition extractProductId_simple (text : string) : option string :=
  first_match patterns_simple text.

(** The fallback as the spec states it: the first standalone run of 10 to
    20 digits, i.e. a maximal run of digits whose neighbours are non-word
    characters or the ends of the text. *)
Fixpoint first_standalone_run (prev : option ascii) (s : string) : option string :=
  let prev_ok := match prev with Some c => negb (is_word c) | None => true end in
  let '(run, rest) := span is_digit s in
  let next_ok := match rest with String c _ => negb (is_word c) | EmptyString => true end in
  if prev_ok && Nat.leb 10 (String.length run) && Nat.leb (String.length run) 20 && next_ok
  then Some run
  else match s with
       | String c s' => first_standalone_run (Some c) s'
       | EmptyString => None
       end.

Definition extractProductId (v : variant) : string -> option string :=
  match v with Rich => extractProductId_rich | Simple => extractProductId_simple end.

End Extract.

(** ** Values of [JSON.parse] and the JavaScript operations applied to them *)
Module Json.
Import Re.

(** A JSON value, or [undefined] (a missing property).  A number carries the
    string [Number.prototype.toString] gives for it; an object its own
    properties in creation order. *)
#[warnings="-register-all"]
Inductive jsval :=
| JUndefined
| JNull
| JBool (b : bool)
| JNum (repr : string)
| JStr (s : string)
| JArr (elems : list jsval)
| JObj (fields : list (string * jsval)).

Definition truthy (v : jsval) : bool :=
  match v with
  | JUndefined | JNull => false
  | JBool b => b
  | JNum r => negb (String.eqb r "0" || String.eqb r "NaN")
  | JStr s => Js.truthy_str s
  | JArr _ | JObj _ => true
  end.

(** [a || b] *)
Definition js_or (a b : jsval) : jsval := if truthy a then a else b.

(** [string | null] as a value. *)
Definition of_option (o : option string) : jsval :=
  match o with Some s => JStr s | None => JNull end.

Definition nat_repr (n : nat) : string := NilZero.string_of_uint (Nat.to_uint n).

Fixpoint field (k : string) (fs : list (string * jsval)) : jsval :=
  match fs with
  | [] => JUndefined
  | (k', v) :: fs' => if String.eqb k k' then v else field k fs'
  end.

(** [v.k] for a property name [k] that is not an array index; [None] is the
    TypeError of reading a property of [undefined] or [null]. *)
Definition get (v : jsval) (k : string) : option jsval :=
  match v with
  | JUndefined | JNull => None
  | JObj fs => Some (field k fs)
  | JArr l => Some (if String.eqb k "length" then JNum (nat_repr (List.length l)) else JUndefined)
  | JStr s => Some (if String.eqb k "length" then JNum (nat_repr (String.length s)) else JUndefined)
  | JBool _ | JNum _ => Some JUndefined
  end.

(** [v?.k] *)
Definition oget (v : jsval) (k : string) : jsval :=
  match get v k with Some w => w | None => JUndefined end.

(** [v?.[0]] *)
Definition oindex0 (v : jsval) : jsval :=
  match v with
  | JArr (x :: _) => x
  | JObj fs => field "0" fs
  | JStr (String c _) => JStr (String c EmptyString)
  | _ => JUndefined
  end.

(** [v === 0] *)
Definition is_zero (v : jsval) : bool :=
  match v with JNum r => String.eqb r "0" | _ => false end.

(** [v === s] for a string literal [s] *)
Definition eq_str (v : jsval) (s : string) : bool :=
  match v with JStr t => String.eqb t s | _ => false end.

Definition has_own (k : string) (fs : list (string * jsval)) : bool :=
  existsb (fun '(k', _) => String.eqb k k') fs.

(** [ToString(v)]; [None] is the TypeError of an object whose own [toString]
    property, a JSON value and not a function, hides [Object.prototype.toString].
    An array is joined with [","], [undefined] and [null] elements giving "". *)
Fixpoint to_string (v : jsval) : option string :=
  match v with
  | JUndefined => Some "undefined"
  | JNull => Some "null"
  | JBool b => Some (if b then "true" else "false")
  | JNum r => Some r
  | JStr s => Some s
  | JArr l =>
      let fix go (l : list jsval) : option (list string) :=
        match l with
        | [] => Some []
        | x :: l' =>
            match (match x with JUndefined | JNull => Some "" | _ => to_string x end), go l' with
            | Some s, Some ss => Some (s :: ss)
            | _, _ => None
            end
        end in
      option_map (String.concat ",") (go l)
  | JObj fs => if has_own "toString" fs then None else Some "[object Object]"
  end.

(** [v.toString()] *)
Definition call_toString (v : jsval) : option string :=
  match v with JUndefined | JNull => None | _ => to_string v end.

(** [v.includes(t)]: [String.prototype.includes] or [Array.prototype.includes];
    any other value has no callable [includes]. *)
Definition call_includes (v : jsval) (t : string) : option bool :=
  match v with
  | JStr s => Some (Js.includes s t)
  | JArr l => Some (existsb (fun x => eq_str x t) l)
  | _ => None
  end.

(** [s.split(sep)] for a non-empty separator. *)
Fixpoint split_fuel (fuel : nat) (sep s : string) : list string :=
  match fuel with
  | 0 => [s]
  | S f =>
      match String.index 0 sep s with
      | Some i => take i s :: split_fuel f sep (drop (i + String.length sep) s)
      | None => [s]
      end
  end.

Definition split (sep s : string) : list string := split_fuel (String.length s) sep s.

(** The white space and line terminators [String.prototype.trim] removes,
    among 8-bit code units. *)
Definition js_space (c : ascii) : bool :=
  existsb (fun n => Nat.eqb (code c) n) [9; 10; 11; 12; 13; 32; 160].

Fixpoint trim_start (s : string) : string :=
  match s with
  | String c s' => if js_space c then trim_start s' else s
  | EmptyString => EmptyString
  end.

Fixpoint trim_end (s : string) : string :=
  match s with
  | String c s' =>
      let r := trim_end s' in
      if js_space c && String.eqb r "" then EmptyString else String c r
  | EmptyString => EmptyString
  end.

Definition trim (s : string) : string := trim_end (trim_start s).

(** [s.replace(/lit/g, rep)] for a non-empty literal. *)
Fixpoint replace_all_fuel (fuel : nat) (lit rep s : string) : string :=
  match fuel with
  | 0 => s
  | S f =>
      match s with
      | EmptyString => EmptyString
      | String c s' =>
          match strip_prefix lit s with
          | Some r => rep ++ replace_all_fuel f lit rep r
          | None => String c (replace_all_fuel f lit rep s')
          end
      end
  end.

Definition replace_all (lit rep s : string) : string :=
  replace_all_fuel (String.length s) lit rep s.

(** [s.replace(re, "")] for a non-global [re], given by the rest of the
    input after a match starting at the front. *)
Fixpoint replace_first (m : string -> option string) (s : string) : string :=
  match m s with
  | Some rest => rest
  | None =>
      match s with
      | String c s' => String c (replace_first m s')
      | EmptyString => EmptyString
      end
  end.

(** The double quote character. *)
Definition dquote : string := String (ascii_of_nat 34) EmptyString.

(** [s.replace(/[^0-9.]/g, "")] *)
Fixpoint keep_numeric (s : string) : string :=
  match s with
  | String c s' =>
      if is_digit c || Ascii.eqb c "." then String c (keep_numeric s') else keep_numeric s'
  | EmptyString => EmptyString
  end.

Fixpoint digits_value (acc : Z) (s : string) : Z :=
  match s with
  | String c s' => digits_value (acc * 10 + Z.of_nat (code c - 48))%Z s'
  | EmptyString => acc
  end.

(** The numeric value [parseFloat] reads from a string of digits and dots:
    the longest prefix [digits [. digits]] holding a digit, as an exact
    decimal; [None] is NaN. *)
Definition decimal_value (s : string) : option Q :=
  let '(ip, r) := span is_digit s in
  let fp := match r with
            | String c r' => if Ascii.eqb c "." then fst (span is_digit r') else ""
            | EmptyString => ""
            end in
  if String.eqb ip "" && String.eqb fp "" then None
  else Some (Qmake (digits_value 0 (ip ++ fp)) (Z.to_pos (10 ^ Z.of_nat (String.length fp)))).

Definition Qlt_b (x y : Q) : bool := negb (Qle_bool y x).

(** ** Numbers: IEEE 754 binary64 *)

(** A JavaScript number.  [DFin q] is a finite value other than -0: [q] is
    a multiple of 2^-1074 of magnitude below 2^1024 (the value +0 is
    [DFin 0]); [DNegZero] is -0, [DInf neg] an infinity of sign [neg]. *)
Inductive double := DFin (q : Q) | DNegZero | DInf (neg : bool) | DNaN.

Definition pow2 (e : Z) : Q := Qpower (inject_Z 2) e.

(** The integer nearest to [x], ties to even. *)
Definition round_half_even (x : Q) : Z :=
  let f := Qfloor x in
  match Qcompare (Qminus x (inject_Z f)) (Qmake 1 2) with
  | Lt => f
  | Gt => (f + 1)%Z
  | Eq => if Z.even f then f else (f + 1)%Z
  end.

(** [floor (log2 a)] for [a > 0]. *)
Definition ilog2 (a : Q) : Z :=
  let k := (Z.log2 (Qnum a) - Z.log2 (Zpos (Qden a)))%Z in
  if Qle_bool (pow2 k) a then k else (k - 1)%Z.

(** Rounding of an exact non-zero value to nearest, ties to even (53-bit
    significand, least exponent -1074, overflow to an infinity, underflow
    to a zero of the value's sign). *)
Definition round (x : Q) : double :=
  let neg := Qlt_b x 0 in
  let a := Qabs x in
  let e := Z.max (ilog2 a - 52) (-1074) in
  let m := round_half_even (Qdiv a (pow2 e)) in
  let v := Qmult (inject_Z m) (pow2 e) in
  if Z.eqb m 0 then (if neg then DNegZero else DFin 0)
  else if Qle_bool (pow2 1024) v then DInf neg
  else DFin (if neg then Qopp v else v).

(** The value of a finite number (0 for -0). *)
Definition dvalue (x : double) : Q :=
  match x with DFin q => q | _ => 0 end.

(** The sign bit. *)
Definition dsign (x : double) : bool :=
  match x with DFin q => Qlt_b q 0 | DNegZero => true | DInf b => b | DNaN => false end.

Definition dzero (x : double) : bool :=
  match x with DFin q => Qeq_bool q 0 | DNegZero => true | _ => false end.

Definition signed_zero (neg : bool) : double := if neg then DNegZero else DFin 0.

(** [x - y] *)
Definition dsub (x y : double) : double :=
  match x, y with
  | DNaN, _ | _, DNaN => DNaN
  | DInf a, DInf b => if Bool.eqb a b then DNaN else DInf a
  | DInf a, _ => DInf a
  | _, DInf b => DInf (negb b)
  | _, _ =>
      let q := Qminus (dvalue x) (dvalue y) in
      if Qeq_bool q 0 then signed_zero (dsign x && negb (dsign y))
      else round q
  end.

(** [x / y] *)
Definition ddiv (x y : double) : double :=
  let s := xorb (dsign x) (dsign y) in
  match x, y with
  | DNaN, _ | _, DNaN => DNaN
  | DInf _, DInf _ => DNaN
  | DInf _, _ => DInf s
  | _, DInf _ => signed_zero s
  | _, _ =>
      if dzero y then (if dzero x then DNaN else DInf s)
      else if dzero x then signed_zero s
      else round (Qdiv (dvalue x) (dvalue y))
  end.

(** [x * y] *)
Definition dmul (x y : double) : double :=
  let s := xorb (dsign x) (dsign y) in
  match x, y with
  | DNaN, _ | _, DNaN => DNaN
  | DInf _, _ => if dzero y then DNaN else DInf s
  | _, DInf _ => if dzero x then DNaN else DInf s
  | _, _ =>
      if dzero x || dzero y then signed_zero s
      else round (Qmult (dvalue x) (dvalue y))
  end.

(** [x > 0], false for NaN. *)
Definition gt0 (x : double) : bool :=
  match x with DFin q => Qlt_b 0 q | DInf b => negb b | _ => false end.


(** [parseFloat] on a string of digits and dots: the decimal read exactly,
    then rounded to the nearest number (as V8 does; ECMA-262 lets an engine
    round differently beyond the 20th significant digit). *)
Definition parseFloat (s : string) : double :=
  match decimal_value s with
  | None => DNaN
  | Some q => if Qeq_bool q 0 then DFin 0 else round q
  end.


Definition Z_repr (n : Z) : string := NilZero.string_of_uint (N.to_uint (Z.to_N n)).

Fixpoint zeros (k : nat) : string :=
  match k with 0 => EmptyString | S k' => String "0" (zeros k') end.

Section WithNumberToString.

(** [Number::toString], used by [toFixed] on magnitudes of at least 10^21. *)
Variable number_to_string : Q -> string.

(** [x.toFixed(f)] (ECMA-262, Number.prototype.toFixed) on a finite value
    [x]. *)
Definition toFixed_finite (x : Q) (f : nat) : string :=
  let s := if Qlt_b x 0 then "-" else "" in
  let ax := Qabs x in
  if Qle_bool (inject_Z (10 ^ 21)) ax then s ++ number_to_string ax
  else
    let n := Qfloor (Qplus (Qmult ax (inject_Z (10 ^ Z.of_nat f))) (Qmake 1 2)) in
    let m := if Z.eqb n 0 then "0" else Z_repr n in
    if Nat.eqb f 0 then s ++ m
    else
      let m := if Nat.leb (String.length m) f then zeros (f + 1 - String.length m) ++ m else m in
      let k := String.length m in
      s ++ take (k - f) m ++ "." ++ drop (k - f) m.

(** [x.toFixed(f)]: [Number::toString(x)] when [x] is not finite; -0 is
    not below 0. *)
Definition toFixed (x : double) (f : nat) : string :=
  match x with
  | DNaN => "NaN"
  | DInf false => "Infinity"
  | DInf true => "-Infinity"
  | DNegZero => toFixed_finite 0 f
  | DFin q => toFixed_finite q f
  end.

(** The discount of getProductDetailsFromApi, rendered with [digits]
    decimals: the value of [let discount = product.target_discount || ""]
    after the [if (!discount && ...)] block. *)
Definition computeDiscount (digits : nat) (discount originalPrice salePrice : jsval) : jsval :=
  if negb (truthy discount) && negb (eq_str originalPrice "N/A") && negb (eq_str salePrice "N/A")
  then
    match call_toString originalPrice, call_toString salePrice with
    | Some os, Some ss =>
        let original := parseFloat (keep_numeric os) in
        let sale := parseFloat (keep_numeric ss) in
        if gt0 original && gt0 sale then
          JStr (toFixed (dmul (ddiv (dsub original sale) original) (DFin 100)) digits ++ "%")
        else discount
    | _, _ => JStr ""
    end
  else discount.

End WithNumberToString.

(** The option monad of code that may throw. *)
Definition bind {A B} (o : option A) (f : A -> option B) : option B :=
  match o with Some a => f a | None => None end.

End Json.

Notation "'let*' x ':=' e 'in' b" := (Json.bind e (fun x => b))
  (at level 200, x name, e at level 100, b at level 200).

(** ** The HTTP interface of the /api/product route, common to both files *)
Module Http.
Import Re Json.

(** The fields of the request body: strings as the [ProductRequest]
    interface declares them, or missing. *)
Record request := {
  url : option string;
  appKey : option string;
  appSecret : option string;
  trackingId : option string }.

Inductive reply (R : Type) :=
| Status400 (message : string)
| Status500 (message : string)
| Status200 (body : R).
Arguments Status400 {R}.
Arguments Status500 {R}.
Arguments Status200 {R}.

(** The network calls of a request. *)
Inductive event :=
| EvResolve (url : string)          (* the HEAD fetch of resolveRedirects *)
| EvApiDetail (productId : string)  (* the productdetail.get POST *)
| EvScrape (url : string)           (* the fetch of the item page *)
| EvAffiliate (url : string).       (* a generateAffiliateLink call *)

(** The result of getProductDetails. *)
Record Scraped := { s_title : jsval; s_imageUrl : jsval }.

(** The validation gate, the same code in both files: the message of the
    400 reply, if any. *)
Definition validate (req : request) : option string :=
  if negb (Js.truthy (url req)) then Some "URL is required"
  else if negb (Js.truthy (appKey req)) || negb (Js.truthy (appSecret req)) ||
          negb (Js.truthy (trackingId req))
  then Some "API credentials are required"
  else
    let u := Js.or_default (url req) "" in
    if negb (Js.includes u "aliexpress.com") && negb (Js.includes u "alix.live") &&
       negb (Js.includes u "s.click.aliexpress.com")
    then Some "Please provide a valid AliExpress URL"
    else None.

(** [extractProductId(finalUrl) || extractProductId(url)] *)
Definition pickProductId (v : variant) (finalUrl u : string) : option string :=
  let e1 := Extract.extractProductId v finalUrl in
  if Js.truthy e1 then e1 else Extract.extractProductId v u.

(** The literal [lit] then [([^"]+)"] at the front of [s]: the capture. *)
Definition at_lit_quoted (lit s : string) : option string :=
  match strip_prefix lit s with
  | Some r =>
      greedy (fun c => negb (Ascii.eqb c (ascii_of_nat 34))) 1 None
        (fun cap rest => if String.prefix dquote rest then Some cap else None) r
  | None => None
  end.

(** The network calls of the offers, from the call trace of generateAllOffers. *)
Definition offer_events (t : Offers.trace) : list event :=
  map (fun '(u, _) => EvAffiliate u) t.

End Http.

(** ** src/server/routes.ts *)
Module RoutesTs.
Import Re Json Http.

(** [productData], and the object getProductDetailsFromApi returns (the same
    twelve keys, so that [{ ...productData, ...apiData }] is [apiData]). *)
Record ProductData := {
  title : jsval; price : jsval; originalPrice : jsval; discount : jsval;
  storeName : jsval; evaluateRate : jsval; shopUrl : jsval; categoryName : jsval;
  commissionRate : jsval; orders : jsval; imageUrl : jsval; shipping_fees : jsval }.

Definition initialProductData : ProductData := {|
  title := JStr ""; price := JStr "N/A"; originalPrice := JStr "N/A";
  discount := JStr "0%"; storeName := JStr "Unknown Store"; evaluateRate := JStr "N/A";
  shopUrl := JStr "N/A"; categoryName := JStr "N/A"; commissionRate := JStr "N/A";
  orders := JStr "N/A"; imageUrl := JNull; shipping_fees := JStr "Free Shipping" |}.

(** The store link rebuilt from a shop URL containing ["/store/"]:
    [shopUrl.split('/store/')[1].split('/')[0].split('?')[0]]; [None] is the
    TypeError of a missing part, caught by the code. *)
Definition storeLink (s : string) : option string :=
  match nth_error (split "/store/" s) 1 with
  | Some p =>
      match nth_error (split "/" p) 0 with
      | Some q =>
          match nth_error (split "?" q) 0 with
          | Some storeId =>
              Some ("https://m.aliexpress.com/store/" ++ storeId ++ "?shopId=" ++ storeId)
          | None => None
          end
      | None => None
      end
  | None => None
  end.

Section WithNumberToString.
Variable number_to_string : Q -> string.

(** getProductDetailsFromApi, from [response.json()] of the productdetail.get
    call ([None]: the fetch or [json()] threw).  [None] as result: the
    function throws. *)
Definition getProductDetailsFromApi (resp : option jsval) : option ProductData :=
  let* data := resp in
  let* err := get data "error_response" in
  if truthy err then None else
  let* r0 := get data "aliexpress_affiliate_productdetail_get_response" in
  let result := oget (oget r0 "resp_result") "result" in
  let products := oget (oget result "products") "product" in
  if negb (truthy products) then None else
  let* len := get products "length" in
  if is_zero len then None else
  let product := match products with JArr l => hd JUndefined l | _ => products end in
  let* tsp := get product "target_sale_price" in
  let* asp := get product "app_sale_price" in
  let salePrice := js_or tsp (js_or asp (JStr "N/A")) in
  let* top := get product "target_original_price" in
  let* op := get product "original_price" in
  let originalPrice := js_or top (js_or op (JStr "N/A")) in
  let* td := get product "target_discount" in
  let discount := computeDiscount number_to_string 1 (js_or td (JStr "")) originalPrice salePrice in
  let* su := get product "shop_url" in
  let shopUrl0 := js_or su (JStr "N/A") in
  let* has_store := call_includes shopUrl0 "/store/" in
  let shopUrl := if has_store then
                   match shopUrl0 with
                   | JStr s => match storeLink s with Some l => JStr l | None => shopUrl0 end
                   | _ => shopUrl0
                   end
                 else shopUrl0 in
  let* mi := get product "product_main_image_url" in
  let* fi := get product "first_image_url" in
  let image := js_or mi (js_or fi JNull) in
  let* ps := get product "product_score" in
  let* er := get product "evaluate_rate" in
  let evaluateRate0 := js_or ps (js_or er (JStr "N/A")) in
  let* sf := get product "shipping_fees" in
  let shipping_fees0 := js_or sf (JStr "Free Shipping") in
  let* pt := get product "product_title" in
  let* sale_s := to_string salePrice in
  let* orig_s := to_string originalPrice in
  let* sn := get product "shop_name" in
  let* evaluate_s := call_toString evaluateRate0 in
  let* cat := get product "first_level_category_name" in
  let* cr := get product "commission_rate" in
  let* lv := get product "lastest_volume" in
  let* shipping_s := call_toString shipping_fees0 in
  Some {| title := js_or pt (JStr "Unknown Product");
          price := JStr (sale_s ++ " USD");
          originalPrice := JStr (orig_s ++ " USD");
          discount := js_or discount (JStr "0%");
          storeName := js_or sn (JStr "Unknown Store");
          evaluateRate := JStr evaluate_s;
          shopUrl := shopUrl;
          categoryName := js_or cat (JStr "N/A");
          commissionRate := js_or cr (JStr "N/A");
          orders := js_or lv (JStr "N/A");
          imageUrl := image;
          shipping_fees := JStr shipping_s |}.

End WithNumberToString.

(** The item page as cheerio reads it. *)
Record Page := {
  (** for each [<script>] whose content includes [window.runParams], in
      document order: the value [JSON.parse] gives for the capture of
      [/window\.runParams\s*=\s*(\{.*?\});/], or [None] when the pattern does
      not match or [JSON.parse] throws *)
  runParams : list (option jsval);
  og_title : option string;          (* meta[property=og:title] content *)
  twitter_title : option string;     (* meta[name=twitter:title] content *)
  product_title_text : string;       (* .product-title-text, first, text() *)
  h1_text : string;                  (* h1, first, text() *)
  title_text : string;               (* title, text() *)
  og_image : option string;          (* meta[property=og:image] content *)
  twitter_image : option string;     (* meta[name=twitter:image] content *)
  magnifier_src : option string;     (* .magnifier-image src *)
  magnifier_data_src : option string;(* .magnifier-image data-src *)
  kf_img_src : option string }.      (* img[src*=kf/], first, src *)

(** One script of the [scripts.each] loop on [(title, imageUrl)]; a thrown
    exception is caught and leaves both unchanged. *)
Definition runParamsStep (st : jsval * jsval) (p : option jsval) : jsval * jsval :=
  match p with
  | None => st
  | Some params =>
      match get params "data" with
      | None => st
      | Some d =>
          let data := js_or d params in
          let title := js_or (oget (oget data "productDetailModule") "title")
                         (js_or (oget (oget data "titleModule") "subject") (oget data "subject")) in
          let image := js_or (oindex0 (oget (oget data "imageModule") "imagePathList"))
                         (oindex0 (oget (oget data "productDetailModule") "imagePathList")) in
          (title, image)
      end
  end.

(** [/_\d+x\d+\.(jpg|png|webp).*/] at the front of [s]: the rest after it. *)
Definition at_thumbnail (s : string) : option string :=
  match strip_prefix "_" s with
  | Some r =>
      greedy is_digit 1 None
        (fun _ r1 =>
           match strip_prefix "x" r1 with
           | Some r2 =>
               greedy is_digit 1 None
                 (fun _ r3 =>
                    match strip_prefix "." r3 with
                    | Some r4 =>
                        let ext := match strip_prefix "jpg" r4 with
                                   | Some r5 => Some r5
                                   | None => match strip_prefix "png" r4 with
                                             | Some r5 => Some r5
                                             | None => strip_prefix "webp" r4
                                             end
                                   end in
                        match ext with
                        | Some r5 => Some (snd (span (fun c => negb (is_line_terminator c)) r5))
                        | None => None
                        end
                    | None => None
                    end) r2
           | None => None
           end) r
  | None => None
  end.

Definition cleanTitle (s : string) : string :=
  trim (take 250
    (replace_all "&gt;" ">" (replace_all "&lt;" "<"
      (replace_all "&quot;" dquote (replace_all "&amp;" "&" s))))).

(** The body of the [try] of getProductDetails on a fetched page; [None]:
    it throws. *)
Definition scrapePage (pg : Page) : option Scraped :=
  let '(title0, image0) := fold_left runParamsStep (runParams pg) (JStr "", JStr "") in
  let title1 :=
    if truthy title0 then title0
    else
      let ogTitle := Js.or_default (og_title pg) "" in
      let twitterTitle := Js.or_default (twitter_title pg) "" in
      JStr (Js.or_default (Some ogTitle)
             (Js.or_default (Some twitterTitle)
               (Js.or_default (Some (trim (product_title_text pg)))
                 (Js.or_default (Some (trim (h1_text pg))) (trim (title_text pg)))))) in
  let image1 :=
    if truthy image0 then image0
    else
      let ogImage := Js.or_default (og_image pg) "" in
      let twitterImage := Js.or_default (twitter_image pg) "" in
      JStr (Js.or_default (Some ogImage)
             (Js.or_default (Some twitterImage)
               (Js.or_default (magnifier_src pg)
                 (Js.or_default (magnifier_data_src pg) "")))) in
  let image2 :=
    if truthy image1 then image1
    else match kf_img_src pg with Some s => JStr s | None => JUndefined end in
  let* title2 := if truthy title1 then
                   match title1 with JStr s => Some (JStr (cleanTitle s)) | _ => None end
                 else Some title1 in
  let* image3 := if truthy image2 then
                   match image2 with
                   | JStr s =>
                       let s1 := if Js.startsWith s "//" then "https:" ++ s else s in
                       Some (JStr (replace_first at_thumbnail s1))
                   | _ => None
                   end
                 else Some image2 in
  Some {| s_title := js_or title2 (JStr "AliExpress Product");
          s_imageUrl := js_or image3 JNull |}.

Definition scrapePlaceholder : Scraped :=
  {| s_title := JStr "AliExpress Product"; s_imageUrl := JNull |}.

(** getProductDetails, from the axios GET of the item page ([None]: the
    request threw, or cheerio could not load the body). *)
Definition getProductDetails (page : option Page) : Scraped :=
  match page with
  | Some pg => match scrapePage pg with Some r => r | None => scrapePlaceholder end
  | None => scrapePlaceholder
  end.

Definition first_url (s : string) : option string :=
  search (fun _ r => option_map (fun n => take n r) (at_url r)) s.

(** resolveRedirects: the final URL and the network call. *)
Definition resolveRedirects (fetch_head : string -> option string) (u : string)
  : string * list event :=
  let cleanUrl := match first_url u with Some m => m | None => u end in
  (match fetch_head cleanUrl with Some final => final | None => cleanUrl end,
   [EvResolve cleanUrl]).

(** The title backfill condition. *)
Definition needsTitle (t : jsval) : bool :=
  negb (truthy t) || eq_str t "Unknown Product" || eq_str t "Unable to extract title".

Definition setTitle (d : ProductData) (t : jsval) : ProductData :=
  {| title := t; price := price d; originalPrice := originalPrice d; discount := discount d;
     storeName := storeName d; evaluateRate := evaluateRate d; shopUrl := shopUrl d;
     categoryName := categoryName d; commissionRate := commissionRate d; orders := orders d;
     imageUrl := imageUrl d; shipping_fees := shipping_fees d |}.

Definition setImageUrl (d : ProductData) (i : jsval) : ProductData :=
  {| title := title d; price := price d; originalPrice := originalPrice d; discount := discount d;
     storeName := storeName d; evaluateRate := evaluateRate d; shopUrl := shopUrl d;
     categoryName := categoryName d; commissionRate := commissionRate d; orders := orders d;
     imageUrl := i; shipping_fees := shipping_fees d |}.

(** The scrape backfill pass. *)
Definition backfill (d : ProductData) (sc : Scraped) : ProductData :=
  let d := if needsTitle (title d) then setTitle d (s_title sc) else d in
  if negb (truthy (imageUrl d)) then setImageUrl d (s_imageUrl sc) else d.

Record ProductResponse := {
  r_id : string; r_productId : string; r_title : jsval; r_imageUrl : jsval;
  r_price : jsval; r_originalPrice : jsval; r_discount : jsval; r_storeName : jsval;
  r_evaluateRate : jsval; r_shopUrl : jsval; r_categoryName : jsval;
  r_commissionRate : jsval; r_orders : jsval; r_shipping_fees : jsval;
  r_searchedAt : string; r_offers : list Offers.OfferItem }.

(** Every outcome of the calls the handler makes. *)
Record world := {
  fetch_head : string -> option string;      (* [response.url] of the HEAD fetch *)
  api_response : string -> option jsval;     (* productdetail.get for a product id *)
  item_page : string -> option Page;         (* the item page of a product id *)
  affiliate : Offers.oracle;                 (* generateAffiliateLink *)
  now_ms : string;                           (* [Date.now()] *)
  now_iso : string }.                        (* [new Date().toISOString()] *)

Section WithNumberToString.
Variable number_to_string : Q -> string.

(** The POST /api/product handler. *)
Definition handler (w : world) (req : request) : reply ProductResponse * list event :=
  match validate req with
  | Some msg => (Status400 msg, [])
  | None =>
      let u := Js.or_default (url req) "" in
      let '(finalUrl, ev1) := resolveRedirects (fetch_head w) u in
      let productId := pickProductId Rich finalUrl u in
      if negb (Js.truthy productId) then
        (Status400 "Could not extract product ID from URL", ev1)
      else
        let pid := Js.or_default productId "" in
        let productData :=
          match getProductDetailsFromApi number_to_string (api_response w pid) with
          | Some apiData => apiData
          | None => initialProductData
          end in
        let scrapedData := getProductDetails (item_page w pid) in
        let productData := backfill productData scrapedData in
        let '(offers, t) := Offers.generateAllOffers Rich (affiliate w) pid [] in
        (Status200 {| r_id := pid ++ "-" ++ now_ms w; r_productId := pid;
                      r_title := title productData; r_imageUrl := imageUrl productData;
                      r_price := price productData; r_originalPrice := originalPrice productData;
                      r_discount := discount productData; r_storeName := storeName productData;
                      r_evaluateRate := evaluateRate productData; r_shopUrl := shopUrl productData;
                      r_categoryName := categoryName productData;
                      r_commissionRate := commissionRate productData;
                      r_orders := orders productData; r_shipping_fees := shipping_fees productData;
                      r_searchedAt := now_iso w; r_offers := offers |},
         (ev1 ++ [EvApiDetail pid; EvScrape ("https://www.aliexpress.com/item/" ++ pid ++ ".html")]
              ++ offer_events t)%list)
  end.

End WithNumberToString.

End RoutesTs.

(** ** src/unnamed/part_006 *)
Module Part006.
Import Re Json Http.

(** [productData], and the object getProductDetailsFromApi returns (the same
    six keys). *)
Record ProductData := {
  title : jsval; price : jsval; originalPrice : jsval; discount : jsval;
  storeName : jsval; imageUrl : jsval }.

Definition initialProductData : ProductData := {|
  title := JStr ""; price := JStr "N/A"; originalPrice := JStr "N/A";
  discount := JStr "0%"; storeName := JStr "Unknown Store"; imageUrl := JNull |}.

Section WithNumberToString.
Variable number_to_string : Q -> string.

(** getProductDetailsFromApi, as in routes.ts without the extra fields. *)
Definition getProductDetailsFromApi (resp : option jsval) : option ProductData :=
  let* data := resp in
  let* err := get data "error_response" in
  if truthy err then None else
  let* r0 := get data "aliexpress_affiliate_productdetail_get_response" in
  let result := oget (oget r0 "resp_result") "result" in
  let products := oget (oget result "products") "product" in
  if negb (truthy products) then None else
  let* len := get products "length" in
  if is_zero len then None else
  let product := match products with JArr l => hd JUndefined l | _ => products end in
  let* tsp := get product "target_sale_price" in
  let* asp := get product "app_sale_price" in
  let salePrice := js_or tsp (js_or asp (JStr "N/A")) in
  let* top := get product "target_original_price" in
  let* op := get product "original_price" in
  let originalPrice := js_or top (js_or op (JStr "N/A")) in
  let* td := get product "target_discount" in
  let discount := computeDiscount number_to_string 0 (js_or td (JStr "")) originalPrice salePrice in
  let* pt := get product "product_title" in
  let* sale_s := to_string salePrice in
  let* orig_s := to_string originalPrice in
  let* sn := get product "shop_name" in
  Some {| title := js_or pt (JStr "Unknown Product");
          price := JStr ("$" ++ sale_s ++ " USD");
          originalPrice := JStr ("$" ++ orig_s ++ " USD");
          discount := js_or discount (JStr "0%");
          storeName := js_or sn (JStr "Unknown Store");
          imageUrl := JNull |}.

End WithNumberToString.

(** The first capture of [/lit([^"]+)"/] in [html]. *)
Definition quotedMatch (lit html : string) : option string :=
  search (fun _ r => at_lit_quoted lit r) html.

Definition subjectKey : string := dquote ++ "subject" ++ dquote ++ ":" ++ dquote.
Definition imagePathKey : string := dquote ++ "imagePath" ++ dquote ++ ":" ++ dquote.
Definition ogImageKey : string := "og:image" ++ dquote ++ " content=" ++ dquote.

Section WithCheerio.

(** [cheerio.load(html)("title").text()] *)
Variable title_text : string -> string.

(** getProductDetails, from the fetched page body ([None]: the fetch threw,
    the response was not ok, or the body could not be read). *)
Definition getProductDetails (body : option string) : Scraped :=
  match body with
  | None => {| s_title := JStr "Unable to extract title"; s_imageUrl := JNull |}
  | Some html =>
      let title0 := quotedMatch subjectKey html in
      let title := if Js.truthy title0 then title0
                   else let t := title_text html in if Js.truthy_str t then Some t else None in
      let image0 := match quotedMatch imagePathKey html with
                    | Some cap => Some (if Js.startsWith cap "http" then cap else "https:" ++ cap)
                    | None => None
                    end in
      let image := if Js.truthy image0 then image0
                   else match quotedMatch ogImageKey html with
                        | Some cap => Some cap
                        | None => image0
                        end in
      {| s_title := JStr (match title with
                          | Some t => if Js.truthy_str t then trim (take 255 t)
                                      else "Unable to extract title"
                          | None => "Unable to extract title"
                          end);
         s_imageUrl := of_option image |}
  end.

End WithCheerio.

(** resolveRedirects *)
Definition resolveRedirects (fetch_head : string -> option string) (u : string)
  : string * list event :=
  (match fetch_head u with Some final => final | None => u end, [EvResolve u]).

(** The title backfill condition. *)
Definition needsTitle (t : jsval) : bool :=
  negb (truthy t) || eq_str t "Unknown Product".

Definition setTitle (d : ProductData) (t : jsval) : ProductData :=
  {| title := t; price := price d; originalPrice := originalPrice d; discount := discount d;
     storeName := storeName d; imageUrl := imageUrl d |}.

Definition setImageUrl (d : ProductData) (i : jsval) : ProductData :=
  {| title := title d; price := price d; originalPrice := originalPrice d; discount := discount d;
     storeName := storeName d; imageUrl := i |}.

(** The scrape backfill pass. *)
Definition backfill (d : ProductData) (sc : Scraped) : ProductData :=
  let d := if needsTitle (title d) then setTitle d (s_title sc) else d in
  if negb (truthy (imageUrl d)) then setImageUrl d (s_imageUrl sc) else d.

Record ProductResponse := {
  r_id : string; r_productId : string; r_title : jsval; r_imageUrl : jsval;
  r_price : jsval; r_originalPrice : jsval; r_discount : jsval; r_storeName : jsval;
  r_searchedAt : string; r_offers : list Offers.OfferItem }.

Record world := {
  fetch_head : string -> option string;
  api_response : string -> option jsval;
  item_page : string -> option string;
  affiliate : Offers.oracle;
  now_ms : string;
  now_iso : string }.

Section WithLibs.
Variable number_to_string : Q -> string.
Variable title_text : string -> string.

(** The POST /api/product handler. *)
Definition handler (w : world) (req : request) : reply ProductResponse * list event :=
  match validate req with
  | Some msg => (Status400 msg, [])
  | None =>
      let u := Js.or_default (url req) "" in
      let '(finalUrl, ev1) := resolveRedirects (fetch_head w) u in
      let productId := pickProductId Simple finalUrl u in
      if negb (Js.truthy productId) then
        (Status400 "Could not extract product ID from URL", ev1)
      else
        let pid := Js.or_default productId "" in
        let productData :=
          match getProductDetailsFromApi number_to_string (api_response w pid) with
          | Some apiData => apiData
          | None => initialProductData
          end in
        let scrapedData := getProductDetails title_text (item_page w pid) in
        let productData := backfill productData scrapedData in
        let '(offers, t) := Offers.generateAllOffers Simple (affiliate w) pid [] in
        (Status200 {| r_id := pid ++ "-" ++ now_ms w; r_productId := pid;
                      r_title := title productData; r_imageUrl := imageUrl productData;
                      r_price := price productData; r_originalPrice := originalPrice productData;
                      r_discount := discount productData; r_storeName := storeName productData;
                      r_searchedAt := now_iso w; r_offers := offers |},
         (ev1 ++ [EvApiDetail pid; EvScrape ("https://www.aliexpress.com/item/" ++ pid ++ ".html")]
              ++ offer_events t)%list)
  end.

End WithLibs.

End Part006.

(** ** [decodeURIComponent], the inverse the share-redirect target is read with *)
Module Uri.
Import Re.

(** The value of a hexadecimal digit, either case. *)
Definition hex_val (c : ascii) : option nat :=
  if is_digit c then Some (code c - 48)
  else if in_range 65 70 c then Some (code c - 55)
  else if in_range 97 102 c then Some (code c - 87)
  else None.

(** [decodeURIComponent] on 8-bit code units: [%XX] escapes of one-byte
    UTF-8 sequences and of two-byte sequences whose code point is below 256
    are decoded; a malformed escape, an invalid or overlong sequence (the
    URIError of the built-in) or a code point above 255 gives [None]. *)
Fixpoint decodeURIComponent (s : string) : option string :=
  match s with
  | EmptyString => Some EmptyString
  | String c r =>
      if Ascii.eqb c "%" then
        match r with
        | String h1 (String h2 r1) =>
            match hex_val h1, hex_val h2 with
            | Some a, Some b =>
                let b0 := 16 * a + b in
                if Nat.ltb b0 128 then
                  option_map (String (ascii_of_nat b0)) (decodeURIComponent r1)
                else if Nat.leb 192 b0 && Nat.ltb b0 224 then
                  match r1 with
                  | String p (String h3 (String h4 r2)) =>
                      if Ascii.eqb p "%" then
                        match hex_val h3, hex_val h4 with
                        | Some c1, Some d1 =>
                            let b1 := 16 * c1 + d1 in
                            if Nat.leb 128 b1 && Nat.ltb b1 192 then
                              let cp := (b0 - 192) * 64 + (b1 - 128) in
                              if Nat.leb 128 cp && Nat.ltb cp 256
                              then option_map (String (ascii_of_nat cp)) (decodeURIComponent r2)
                              else None
                            else None
                        | _, _ => None
                        end
                      else None
                  | _ => None
                  end
                else None
            | _, _ => None
            end
        | _ => None
        end
      else option_map (String c) (decodeURIComponent r)
  end.

End Uri.

(** ** Inputs and readings used by the statements below *)
Module Spec.
Import Re Json Http.

(** A productdetail.get response carrying the single product [product]. *)
Definition wrapProduct (product : jsval) : jsval :=
  JObj [("aliexpress_affiliate_productdetail_get_response",
         JObj [("resp_result",
                JObj [("result",
                       JObj [("products", JObj [("product", JArr [product])])])])])].

(** The price fields of a product object, with their fallbacks. *)
Definition originalPriceOf (fs : list (string * jsval)) : jsval :=
  js_or (field "target_original_price" fs) (js_or (field "original_price" fs) (JStr "N/A")).

Definition salePriceOf (fs : list (string * jsval)) : jsval :=
  js_or (field "target_sale_price" fs) (js_or (field "app_sale_price" fs) (JStr "N/A")).

(** A price string parsed as the discount computation reads it; [None] when
    it cannot be read or parses to NaN. *)
Definition parsedPrice (v : jsval) : double :=
  match call_toString v with
  | Some s => parseFloat (keep_numeric s)
  | None => DNaN
  end.

(** The discount rule as a separate reading: "0%" when a price is "N/A",
    unparsable or not strictly positive, otherwise
    [(original - sale) / original * 100] in binary64 arithmetic, with
    [digits] decimals and "%". *)
Definition discountRule (number_to_string : Q -> string) (digits : nat) (op sp : jsval) : jsval :=
  if eq_str op "N/A" || eq_str sp "N/A" then JStr "0%" else
  let o := parsedPrice op in
  let s := parsedPrice sp in
  if gt0 o && gt0 s
  then JStr (toFixed number_to_string (dmul (ddiv (dsub o s) o) (DFin 100)) digits ++ "%")
  else JStr "0%".

(** A [Number::toString] for the concrete runs (never reached below 10^21). *)
Definition nts0 (_ : Q) : string := "".

(** [cheerio]'s title text for the concrete runs. *)
Definition tt0 (_ : string) : string := "".

(** A complete request for an item URL. *)
Definition itemRequest : request :=
  {| url := Some "https://www.aliexpress.com/item/1005001.html";
     appKey := Some "k"; appSecret := Some "s"; trackingId := Some "t" |}.

(** part_006: the API answers with the title "Unable to extract title" and
    the item page carries the subject "Phone case". *)
Definition world_placeholder_title : Part006.world :=
  {| Part006.fetch_head := fun _ => None;
     Part006.api_response := fun _ =>
       Some (wrapProduct (JObj [("product_title", JStr "Unable to extract title")]));
     Part006.item_page := fun _ => Some (Part006.subjectKey ++ "Phone case" ++ dquote);
     Part006.affiliate := fun _ _ => None;
     Part006.now_ms := "0"; Part006.now_iso := "" |}.

(** part_006: the API is down and the item page's subject is blank. *)
Definition world_blank_subject : Part006.world :=
  {| Part006.fetch_head := fun _ => None;
     Part006.api_response := fun _ => None;
     Part006.item_page := fun _ => Some (Part006.subjectKey ++ "   " ++ dquote);
     Part006.affiliate := fun _ _ => None;
     Part006.now_ms := "0"; Part006.now_iso := "" |}.

(** A complete request for a URL outside AliExpress. *)
Definition foreignRequest : request :=
  {| url := Some "https://example.com/foo";
     appKey := Some "k"; appSecret := Some "s"; trackingId := Some "t" |}.

(** A request for a URL whose only product id is a bare digit run. *)
Definition bareDigitsRequest : request :=
  {| url := Some "https://www.aliexpress.com/x/1234567890";
     appKey := Some "k"; appSecret := Some "s"; trackingId := Some "t" |}.

(** routes.ts: no redirect, and every downstream call fails. *)
Definition world_rich_offline : RoutesTs.world :=
  {| RoutesTs.fetch_head := fun _ => None;
     RoutesTs.api_response := fun _ => None;
     RoutesTs.item_page := fun _ => None;
     RoutesTs.affiliate := fun _ _ => None;
     RoutesTs.now_ms := "0"; RoutesTs.now_iso := "" |}.

(** part_006: no redirect, and every downstream call fails. *)
Definition world_simple_offline : Part006.world :=
  {| Part006.fetch_head := fun _ => None;
     Part006.api_response := fun _ => None;
     Part006.item_page := fun _ => None;
     Part006.affiliate := fun _ _ => None;
     Part006.now_ms := "0"; Part006.now_iso := "" |}.

(** A product priced "$40.00 USD" reduced to "$20.00 USD", without a
    discount field. *)
Definition fields_40_20 : list (string * jsval) :=
  [("target_original_price", JStr "$40.00 USD"); ("target_sale_price", JStr "$20.00 USD")].

(** A product priced "$3.00" reduced to "$2.00", without a discount field. *)
Definition product_3_2 : jsval :=
  JObj [("target_original_price", JStr "$3.00"); ("target_sale_price", JStr "$2.00")].

End Spec.

(** * Proofs *)

Module OffersProofs.
Import Offers.
Local Open Scope list_scope.

Lemma consistent_call o u t r t' :
  consistent o t -> generateAffiliateLink o u t = (r, t') -> consistent o t'.
Proof.
  unfold generateAffiliateLink; intros Hc [= <- <-] k u' r' Hk.
  destruct (Nat.lt_ge_cases k (List.length t)) as [Hlt | Hge].
  - rewrite nth_error_app1 in Hk by exact Hlt. now apply Hc.
  - rewrite nth_error_app2 in Hk by exact Hge.
    destruct (k - List.length t) as [|m] eqn:E; simpl in Hk.
    + injection Hk as <- <-. f_equal. lia.
    + destruct m; discriminate.
Qed.

Lemma offers_loop_spec o tbl t items t' :
  offers_loop o tbl t = (items, t') ->
  (consistent o t -> consistent o t') /\
  exists bs, t' = t ++ concat bs /\ Attempts tbl bs items.
Proof.
  revert t items t'.
  induction tbl as [|[[nm url] sec] rest IH]; intros t items t' Hrun; simpl in Hrun.
  - injection Hrun as <- <-. split; [tauto|].
    exists []. split; [now rewrite app_nil_r | constructor].
  - destruct (Js.truthy (o (List.length t) url)) eqn:Ht1.
    + destruct (offers_loop o rest (t ++ [(url, o (List.length t) url)])) as [its t3] eqn:Hrest.
      injection Hrun as <- <-.
      destruct (IH _ _ _ Hrest) as [Hc [bs [-> Hbs]]].
      split.
      * intros H0. apply Hc. eapply consistent_call; [exact H0 | reflexivity].
      * exists ([(url, o (List.length t) url)] :: bs). split.
        -- simpl. now rewrite <- app_assoc.
        -- constructor; [rewrite Ht1; now constructor | exact Hbs].
    + set (t1 := t ++ [(url, o (List.length t) url)]) in *.
      unfold generateAffiliateLink in Hrun; simpl in Hrun.       destruct (offers_loop o rest (t1 ++ [(sec, o (List.length t1) sec)])) as [its t3] eqn:Hrest.
      injection Hrun as <- <-.
      destruct (IH _ _ _ Hrest) as [Hc [bs [-> Hbs]]].
      split.
      * intros H0. apply Hc. eapply consistent_call; [|reflexivity].
        eapply consistent_call; [exact H0 | reflexivity].
      * exists ([(url, o (List.length t) url); (sec, o (List.length t1) sec)] :: bs). split.
        -- unfold t1. simpl. now rewrite <- !app_assoc.
        -- constructor; [now constructor | exact Hbs].
Qed.

Lemma Attempts_length tbl bs its :
  Attempts tbl bs its -> List.length its = List.length tbl /\ List.length bs = List.length tbl.
Proof. induction 1; simpl; lia. Qed.

Lemma Attempts_names tbl bs its :
  Attempts tbl bs its -> map name its = map (fun x => fst (fst x)) tbl.
Proof. induction 1 as [|? ? ? ? ? ? ? ? Ha]; simpl; [reflexivity|]. inversion Ha; subst; simpl; congruence. Qed.

Lemma Attempts_nth tbl bs its i it :
  Attempts tbl bs its -> nth_error its i = Some it ->
  exists nm url sec b, nth_error tbl i = Some (nm, url, sec) /\
    nth_error bs i = Some b /\ OfferAttempt nm url sec b it.
Proof.
  intros H; revert i; induction H; intros [|i] Hi; simpl in Hi; try discriminate.
  - injection Hi as <-. exists nm, url, sec, b. auto.
  - now apply IHAttempts.
Qed.

Lemma nth_error_combine {A B} (l1 : list A) (l2 : list B) i a b :
  nth_error (combine l1 l2) i = Some (a, b) ->
  nth_error l1 i = Some a /\ nth_error l2 i = Some b.
Proof.
  revert l2 i; induction l1 as [|x l1 IH]; intros [|y l2] [|i]; simpl; try discriminate.
  - now intros [= -> ->].
  - apply IH.
Qed.

Lemma table_length v pid : List.length (table v pid) = 8.
Proof. destruct v; reflexivity. Qed.

Lemma table_names v pid : map (fun x => fst (fst x)) (table v pid) = offer_names.
Proof. destruct v; reflexivity. Qed.

Lemma primary_nonempty pid i nm url :
  nth_error (offersPrimary pid) i = Some (nm, url) -> url <> "".
Proof.
  do 8 (destruct i as [|i]; [simpl; intros [= _ <-]; discriminate|]).
  destruct i; discriminate.
Qed.

Lemma or_default_nonempty r url : url <> "" -> Js.or_default r url <> "".
Proof.
  intros Hu. destruct r as [s|]; simpl; [|exact Hu].
  unfold Js.truthy_str. destruct (String.eqb_spec s ""); simpl; [exact Hu | exact n].
Qed.

Lemma truthy_some r : Js.truthy r = true -> r = Some (Js.or_default r "") /\ Js.or_default r "" <> "".
Proof.
  destruct r as [s|]; simpl; [|discriminate].
  unfold Js.truthy_str. destruct (String.eqb_spec s ""); simpl; [discriminate|].
  intros _. split; [reflexivity | exact n].
Qed.

Lemma or_default_truthy r d : Js.truthy r = true -> Js.or_default r d = Js.or_default r "".
Proof.
  destruct r as [s|]; simpl; [|discriminate]. now intros ->.
Qed.

Lemma or_default_falsy r d : Js.truthy r = false -> Js.or_default r d = d.
Proof. destruct r as [s|]; simpl; [now intros ->|reflexivity]. Qed.

Lemma table_wrap v pid :
  table v pid = map (fun '(nm, url) => (nm, url, share_wrap v url)) (offersPrimary pid).
Proof. destruct v; reflexivity. Qed.

Lemma in_trace_block (bs : list trace) i b e :
  nth_error bs i = Some b -> In e b -> In e (concat bs).
Proof. intros Hb He. apply in_concat. exists b. split; [eapply nth_error_In; eauto | exact He]. Qed.

(** C1: for every product id and every outcome of the affiliate-link calls,
    generateAllOffers returns exactly 8 offers named in the fixed order; every
    link is non-empty: a link obtained from an affiliate call when the offer
    succeeded, the offer's primary target URL otherwise. *)
Theorem generateAllOffers_eight_ordered v o productId :
  let '(items, t) := generateAllOffers v o productId [] in
  List.length items = 8 /\ map name items = offer_names /\
  forall i it, nth_error items i = Some it ->
    link it <> "" /\
    ((success it = true /\ exists u, In (u, Some (link it)) t) \/
     (success it = false /\
      nth_error (map snd (offersPrimary productId)) i = Some (link it))).
Proof.
  destruct (generateAllOffers v o productId []) as [items t] eqn:E.
  destruct (offers_loop_spec _ _ _ _ _ E) as [_ [bs [Ht Hatt]]]. simpl in Ht.
  split; [| split].
  - rewrite (proj1 (Attempts_length _ _ _ Hatt)). apply table_length.
  - rewrite (Attempts_names _ _ _ Hatt). apply table_names.
  - intros i it Hi.
    destruct (Attempts_nth _ _ _ _ _ Hatt Hi) as (nm & url & sec & b & Htbl & Hb & Ha).
    apply nth_error_combine in Htbl as [Hprim _].
    pose proof (primary_nonempty _ _ _ _ Hprim) as Hu.
    inversion Ha as [r Hr | r1 r2 Hr1]; subst it; cbn [link success name].
    + split; [now apply or_default_nonempty|]. left. split; [reflexivity|].
      exists url. rewrite Ht. eapply in_trace_block; [exact Hb|].
      rewrite (or_default_truthy _ _ Hr), <- (proj1 (truthy_some _ Hr)). subst b; simpl; auto.
    + split; [now apply or_default_nonempty|].
      destruct (Js.truthy r2) eqn:Hr2.
      * left. split; [reflexivity|]. exists sec. rewrite Ht.
        eapply in_trace_block; [exact Hb|].
        rewrite (or_default_truthy _ _ Hr2), <- (proj1 (truthy_some _ Hr2)).
        subst b; simpl; auto.
      * right. split; [reflexivity|]. rewrite (or_default_falsy _ _ Hr2).
        rewrite nth_error_map, Hprim. reflexivity.
Qed.

(** C5: each offer makes exactly one primary affiliate-link attempt first; a
    second attempt, on the share-redirect wrapper around the same target, is
    made exactly when the first yields no link; when both fail the offer is
    still recorded as [{name, link: primary URL, success: false}]; the calls
    of all 8 offers are made, block after block, and each result recorded is
    the upstream answer to that call. *)
Theorem generateAllOffers_retry_once v o productId :
  let '(items, t) := generateAllOffers v o productId [] in
  consistent o t /\
  exists bs, t = concat bs /\
    Attempts (map (fun '(nm, url) => (nm, url, share_wrap v url)) (offersPrimary productId))
      bs items.
Proof.
  destruct (generateAllOffers v o productId []) as [items t] eqn:E.
  destruct (offers_loop_spec _ _ _ _ _ E) as [Hc [bs [Ht Hatt]]].
  split.
  - apply Hc. intros k u r Hk. destruct k; discriminate.
  - exists bs. split; [exact Ht|]. rewrite <- table_wrap. exact Hatt.
Qed.

End OffersProofs.

Module SignatureProofs.
Import Signature.
Local Open Scope list_scope.

Definition le_str (a b : string) : Prop := String.leb a b = true.

Lemma ascii_compare_cases a b :
  (Ascii.compare a b = Eq /\ a = b) \/
  (Ascii.compare a b = Lt /\ (N_of_ascii a < N_of_ascii b)%N) \/
  (Ascii.compare a b = Gt /\ (N_of_ascii b < N_of_ascii a)%N).
Proof.
  unfold Ascii.compare.
  destruct (N.compare_spec (N_of_ascii a) (N_of_ascii b)) as [E|E|E].
  - left. split; [reflexivity|].
    rewrite <- (ascii_N_embedding a), <- (ascii_N_embedding b). now rewrite E.
  - right; left; split; [reflexivity | exact E].
  - right; right; split; [reflexivity | exact E].
Qed.

Lemma leb_trans a b c : le_str a b -> le_str b c -> le_str a c.
Proof.
  unfold le_str, String.leb. revert b c.
  induction a as [|x a IH]; intros [|y b] [|z c]; simpl; try easy.
  destruct (ascii_compare_cases x y) as [[-> ->]|[[-> Hxy]|[-> Hxy]]];
  destruct (ascii_compare_cases y z) as [[-> ->]|[[-> Hyz]|[-> Hyz]]]; try easy.
  - apply IH.
  - destruct (ascii_compare_cases x z) as [[-> ->]|[[-> ?]|[-> ?]]]; try easy; lia.
  - destruct (ascii_compare_cases x z) as [[-> ->]|[[-> ?]|[-> ?]]]; try easy; lia.
Qed.

Lemma leb_antisym a b : le_str a b -> le_str b a -> a = b.
Proof. apply String.leb_antisym. Qed.

Lemma leb_not a b : String.leb a b = false -> le_str b a.
Proof. intros H. destruct (String.leb_total a b) as [E|E]; [congruence | exact E]. Qed.

Lemma insert_perm x l : Permutation (insert x l) (x :: l).
Proof.
  induction l as [|y l IH]; simpl; [reflexivity|].
  destruct (String.leb x y); [reflexivity|].
  rewrite IH. apply perm_swap.
Qed.

Lemma sort_perm l : Permutation (sort l) l.
Proof.
  induction l as [|x l IH]; simpl; [reflexivity|].
  rewrite insert_perm. now apply perm_skip.
Qed.

Lemma insert_sorted x l : Sorted le_str l -> Sorted le_str (insert x l).
Proof.
  induction 1 as [|y l Hs IH Hhd]; simpl; [repeat constructor|].
  destruct (String.leb x y) eqn:E.
  - constructor; [now constructor | now constructor].
  - constructor; [exact IH|].
    destruct l as [|z l]; simpl; [constructor; now apply leb_not|].
    inversion Hhd; subst.
    destruct (String.leb x z); constructor; [now apply leb_not | assumption].
Qed.

Lemma sort_sorted l : StronglySorted le_str (sort l).
Proof.
  apply Sorted_StronglySorted; [intros a b c; apply leb_trans|].
  induction l; simpl; [constructor | now apply insert_sorted].
Qed.

Lemma sorted_unique l1 l2 :
  StronglySorted le_str l1 -> StronglySorted le_str l2 -> Permutation l1 l2 -> l1 = l2.
Proof.
  revert l2; induction l1 as [|a l1 IH]; intros l2 H1 H2 Hp.
  - symmetry; now apply Permutation_nil.
  - destruct l2 as [|b l2]; [apply Permutation_sym, Permutation_nil in Hp; discriminate|].
    apply StronglySorted_inv in H1 as [H1 Hf1].
    apply StronglySorted_inv in H2 as [H2 Hf2].
    assert (a = b) as <-.
    { destruct (Permutation_in a Hp (in_eq _ _)) as [->|Ha]; [reflexivity|].
      destruct (Permutation_in b (Permutation_sym Hp) (in_eq _ _)) as [->|Hb]; [reflexivity|].
      apply leb_antisym; [exact (proj1 (Forall_forall _ _) Hf1 b Hb)
                        | exact (proj1 (Forall_forall _ _) Hf2 a Ha)]. }
    f_equal. apply IH; [exact H1 | exact H2 | exact (Permutation_cons_inv Hp)].
Qed.

Lemma lookup_in k v p : NoDup (map fst p) -> In (k, v) p -> lookup k p = Some v.
Proof.
  induction p as [|[k' v'] p IH]; simpl; [easy|].
  intros Hd Hin. inversion Hd as [|? ? Hnot Hd']; subst.
  destruct (String.eqb_spec k k') as [->|Hne].
  - destruct Hin as [[= ->]|Hin]; [reflexivity|].
    exfalso. apply Hnot. now apply (in_map fst) in Hin.
  - destruct Hin as [[= -> ->]|Hin]; [congruence|]. now apply IH.
Qed.

Lemma lookup_some_in k v p : lookup k p = Some v -> In (k, v) p.
Proof.
  induction p as [|[k' v'] p IH]; simpl; [discriminate|].
  destruct (String.eqb_spec k k') as [->|_]; [intros [= ->]; now left | auto].
Qed.

Lemma in_iff_lookup k v p : NoDup (map fst p) -> In (k, v) p <-> lookup k p = Some v.
Proof. split; [now apply lookup_in | apply lookup_some_in]. Qed.

Lemma in_keys_lookup k p : In k (map fst p) <-> exists v, lookup k p = Some v.
Proof.
  induction p as [|[k' v'] p IH]; simpl; [split; [easy | intros [? ?]; discriminate]|].
  destruct (String.eqb_spec k k') as [->|Hne].
  - split; [eauto | auto].
  - rewrite <- IH. split; [intros [->|H]; [congruence | exact H] | auto].
Qed.

Lemma key_lt_le a b : key_lt a b -> le_str (fst a) (fst b).
Proof. unfold key_lt, String.ltb, le_str, String.leb. now destruct (fst a ?= fst b)%string. Qed.

Lemma sorted_keys (l : params) :
  StronglySorted key_lt l -> StronglySorted le_str (map fst l).
Proof.
  induction 1 as [|a l _ IH Hf]; simpl; constructor; [exact IH|].
  apply Forall_map. eapply Forall_impl; [|exact Hf]. apply key_lt_le.
Qed.

Lemma signing_string p sorted :
  NoDup (map fst p) -> Permutation sorted p -> StronglySorted key_lt sorted ->
  String.concat "" (map (fun key => (key ++ index p key)%string) (sort (map fst p)))
  = concat_pairs sorted.
Proof.
  intros Hd Hp Hs.
  assert (sort (map fst p) = map fst sorted) as ->.
  { apply sorted_unique; [apply sort_sorted | now apply sorted_keys |].
    rewrite sort_perm. apply Permutation_map. now symmetry. }
  unfold concat_pairs. f_equal. rewrite map_map. apply map_ext_in.
  intros [k v] Hin. simpl. unfold index.
  rewrite (lookup_in k v p Hd (Permutation_in _ Hp Hin)). reflexivity.
Qed.

(** C3: the signature is the upper-case hex rendering of the HMAC-SHA256
    digest, keyed by the secret, of the concatenation of [key ++ value] over
    the entries in sorted key order; two parameter objects with the same
    key-value mapping get the same signature. *)
Theorem generateApiSignature_sorted_concat hmac (p1 p2 : params) secret sorted
  (Hd1 : NoDup (map fst p1)) (Hd2 : NoDup (map fst p2))
  (Hsame : forall k, lookup k p1 = lookup k p2)
  (Hperm : Permutation sorted p1) (Hsorted : StronglySorted key_lt sorted) :
  generateApiSignature hmac p1 secret = toUpperCase (hex (hmac secret (concat_pairs sorted))) /\
  generateApiSignature hmac p2 secret = toUpperCase (hex (hmac secret (concat_pairs sorted))).
Proof.
  assert (Hp2 : Permutation sorted p2).
  { rewrite Hperm. apply NoDup_Permutation.
    - eapply NoDup_map_inv. exact Hd1.
    - eapply NoDup_map_inv. exact Hd2.
    - intros [k v]. rewrite !in_iff_lookup by assumption. now rewrite Hsame. }
  unfold generateApiSignature. split; f_equal; f_equal; f_equal;
    apply signing_string; assumption.
Qed.

End SignatureProofs.

Module ExtractProofs.
Import Re Extract.

Fixpoint all_chars (p : ascii -> bool) (s : string) : bool :=
  match s with EmptyString => true | String c s' => p c && all_chars p s' end.

Lemma span_spec cls s run rest :
  span cls s = (run, rest) ->
  s = run ++ rest /\ all_chars cls run = true /\
  match rest with String c _ => cls c = false | EmptyString => True end.
Proof.
  revert run rest; induction s as [|c s IH]; intros run rest; simpl.
  - intros [= <- <-]. auto.
  - destruct (cls c) eqn:Hc.
    + destruct (span cls s) as [a r] eqn:E. intros [= <- <-].
      destruct (IH _ _ eq_refl) as (-> & Ha & Hr). simpl. rewrite Hc, Ha. auto.
    + intros [= <- <-]. simpl. auto.
Qed.

Lemma take_drop n s : take n s ++ drop n s = s.
Proof. revert s; induction n; intros [|c s]; simpl; f_equal; auto. Qed.

Lemma take_all s : take (String.length s) s = s.
Proof. induction s; simpl; f_equal; auto. Qed.

Lemma drop_all s : drop (String.length s) s = "".
Proof. induction s; simpl; auto. Qed.

Lemma length_take n s : n <= String.length s -> String.length (take n s) = n.
Proof. revert s; induction n; intros [|c s]; simpl; intros; try lia; f_equal; apply IHn; lia. Qed.

Lemma drop_lt p n s :
  all_chars p s = true -> n < String.length s ->
  exists c r, drop n s = String c r /\ p c = true.
Proof.
  revert s; induction n; intros [|c s]; simpl; intros H Hl; try lia;
    apply andb_true_iff in H as [Hc Hs].
  - eauto.
  - apply IHn; [exact Hs | lia].
Qed.

Lemma get_last_take p n s :
  all_chars p s = true -> 1 <= n <= String.length s ->
  exists c, String.get (String.length (take n s) - 1) (take n s) = Some c /\ p c = true.
Proof.
  revert s; induction n as [|n IH]; intros [|c s]; simpl; intros H Hl; try lia.
  apply andb_true_iff in H as [Hc Hs].
  destruct n as [|n].
  - exists c. simpl. auto.
  - destruct (IH s Hs ltac:(lia)) as [c' [Hg Hp]].
    exists c'. rewrite length_take in * by lia. simpl.
    replace (n - 0) with n by lia. replace (S n - 1) with n in Hg by lia. auto.
Qed.

Lemma digit_word c : is_digit c = true -> is_word c = true.
Proof. unfold is_word. intros ->. now rewrite !orb_true_r. Qed.

Lemma greedy_loop_eq {A} min (k : string -> string -> option A) run rest n :
  greedy_loop min k run rest n =
  match (if Nat.leb min n then k (take n run) (drop n run ++ rest) else None) with
  | Some x => Some x
  | None => match n with 0 => None | S n' => greedy_loop min k run rest n' end
  end.
Proof. destruct n; reflexivity. Qed.

Lemma greedy_loop_none {A} min (k : string -> string -> option A) run rest n :
  (forall m, m <= n -> min <= m -> k (take m run) (drop m run ++ rest) = None) ->
  greedy_loop min k run rest n = None.
Proof.
  induction n as [|n IH]; intros H; rewrite greedy_loop_eq.
  - destruct (Nat.leb_spec min 0); [rewrite H by lia|]; reflexivity.
  - destruct (Nat.leb_spec min (S n)); [rewrite H by lia|]; apply IH; intros; apply H; lia.
Qed.

Lemma greedy_loop_top {A} min (k : string -> string -> option A) run rest n x :
  min <= n -> k (take n run) (drop n run ++ rest) = Some x ->
  greedy_loop min k run rest n = Some x.
Proof.
  intros Hm Hk. rewrite greedy_loop_eq. apply Nat.leb_le in Hm. now rewrite Hm, Hk.
Qed.

(** One position of [\b\d{10,20}\b] is the spec's test at that position. *)
Lemma at_long_number_spec prev s :
  at_long_number prev s =
  (let prev_ok := match prev with Some c => negb (is_word c) | None => true end in
   let '(run, rest) := span is_digit s in
   let next_ok := match rest with String c _ => negb (is_word c) | EmptyString => true end in
   if prev_ok && Nat.leb 10 (String.length run) && Nat.leb (String.length run) 20 && next_ok
   then Some run else None).
Proof.
  unfold at_long_number, greedy.
  destruct (span is_digit s) as [run rest] eqn:Hspan.
  destruct (span_spec _ _ _ _ Hspan) as (Hs & Hrun & Hrest). cbv zeta.
  set (k := fun d rest0 : string =>
              if boundary match String.get (String.length d - 1) d with
                          | Some c => Some c | None => prev end rest0
              then Some d else None).
  (* a continuation at a length [m] between 10 and the run length *)
  assert (Hk : forall m, 10 <= m <= String.length run ->
            k (take m run) (drop m run ++ rest) =
            if Nat.eqb m (String.length run)
            then (match rest with String c _ => if negb (is_word c) then Some run else None
                                | EmptyString => Some run end)
            else None).
  { intros m Hm. unfold k.
    destruct (get_last_take _ m run Hrun ltac:(lia)) as [c [-> Hc]].
    unfold boundary. rewrite (digit_word _ Hc). simpl.
    destruct (Nat.eqb_spec m (String.length run)) as [->|Hne].
    - rewrite drop_all, take_all. simpl.
      destruct rest as [|c' r]; [reflexivity|]. simpl. now destruct (is_word c').
    - destruct (drop_lt _ m run Hrun ltac:(lia)) as (c' & r & -> & Hc'). simpl.
      now rewrite (digit_word _ Hc'). }
  destruct (Nat.leb_spec 10 (String.length run)) as [H10|H10].
  - destruct (boundary prev s) eqn:Hb.
    + (* at a boundary the preceding character is not a word character *)
      assert (Hprev : match prev with Some c => negb (is_word c) | None => true end = true).
      { revert Hb. unfold boundary. rewrite Hs.
        destruct run as [|d r]; [simpl in H10; lia|].
        simpl in Hrun |- *. apply andb_true_iff in Hrun as [Hd _].
        rewrite (digit_word _ Hd). destruct prev as [p|]; [|reflexivity].
        now destruct (is_word p). }
      rewrite Hprev. cbn [andb].
      destruct (Nat.leb_spec (String.length run) 20) as [H20|H20].
      * rewrite Nat.min_r by lia.
        assert (Hnext : forall v, k (take (String.length run) run)
                                   (drop (String.length run) run ++ rest) = v ->
                  greedy_loop 10 k run rest (String.length run) =
                  match v with Some x => Some x | None => None end).
        { intros v Hv. destruct v as [x|].
          - now apply greedy_loop_top.
          - apply greedy_loop_none. intros m Hm1 Hm2.
            destruct (Nat.eq_dec m (String.length run)) as [->|Hne]; [exact Hv|].
            rewrite Hk by lia. apply Nat.eqb_neq in Hne. now rewrite Hne. }
        rewrite (Hnext _ eq_refl), Hk by lia. rewrite Nat.eqb_refl.
        destruct rest as [|c r]; [reflexivity|]. now destruct (negb (is_word c)).
      * rewrite Nat.min_l by lia.
        apply greedy_loop_none. intros m Hm1 Hm2.
        rewrite Hk by lia. destruct (Nat.eqb_spec m (String.length run)); [lia | reflexivity].
    + destruct (match prev with Some c => negb (is_word c) | None => true end) eqn:Hprev;
        [|reflexivity].
      exfalso. revert Hb. unfold boundary. rewrite Hs.
      destruct run as [|d r]; [simpl in H10; lia|].
      simpl in Hrun |- *. apply andb_true_iff in Hrun as [Hd _].
      rewrite (digit_word _ Hd). destruct prev as [p|]; [|discriminate].
      now destruct (is_word p).
  - replace (Nat.leb 10 (String.length run)) with false by (symmetry; apply Nat.leb_gt; lia).
    rewrite andb_false_r. cbn [andb].
    destruct (boundary prev s); [|reflexivity].
    apply greedy_loop_none. intros m Hm1 Hm2.
    destruct (Nat.min_spec 20 (String.length run)) as [[_ E]|[_ E]]; lia.
Qed.

Lemma search_long_number prev s :
  search_from at_long_number prev s = first_standalone_run prev s.
Proof.
  revert prev; induction s as [|c s IH]; intros prev;
    cbn [search_from first_standalone_run]; rewrite at_long_number_spec; cbv zeta;
    destruct (span is_digit _) as [run rest];
    match goal with |- context [if ?b then _ else _] => destruct b end; auto.
Qed.

Lemma str_app_assoc (a b c : string) : a ++ (b ++ c) = (a ++ b) ++ c.
Proof. induction a; simpl; congruence. Qed.

(** A matcher that ignores the preceding character succeeds somewhere. *)
Lemma search_some {A} (m : string -> option A) pre r x :
  m r = Some x -> exists y, search (fun _ r' => m r') (pre ++ r) = Some y.
Proof.
  intros H. unfold search. generalize (@None ascii) as prev.
  induction pre as [|c pre IH]; intros prev; simpl.
  - destruct r; simpl; rewrite H; eauto.
  - destruct (m (String c (pre ++ r))); eauto.
Qed.

Lemma search_some_inv {A} (m : string -> option A) s x :
  search (fun _ r => m r) s = Some x -> exists pre r, s = pre ++ r /\ m r = Some x.
Proof.
  unfold search. generalize (@None ascii) as prev.
  induction s as [|c s IH]; intros prev; simpl.
  - destruct (m "") eqn:E; intros H; [injection H as <-; exists "", ""; auto | discriminate].
  - destruct (m (String c s)) eqn:E.
    + intros [= <-]. exists "", (String c s). auto.
    + intros H. destruct (IH _ H) as (pre & r & -> & Hr). exists (String c pre), r. auto.
Qed.

Lemma greedy_loop_some {A} min (k : string -> string -> option A) run rest n x :
  greedy_loop min k run rest n = Some x ->
  exists m, k (take m run) (drop m run ++ rest) = Some x.
Proof.
  induction n as [|n IH]; rewrite greedy_loop_eq;
    destruct (Nat.leb min _); try destruct (k _ _) eqn:E; intros H;
    first [injection H as <-; eauto | discriminate | now apply IH].
Qed.

Lemma greedy_some {A} cls min max (k : string -> string -> option A) s x :
  greedy cls min max k s = Some x -> exists d r, s = d ++ r /\ k d r = Some x.
Proof.
  unfold greedy. destruct (span cls s) as [run rest] eqn:Hs.
  destruct (span_spec _ _ _ _ Hs) as [-> _].
  intros H. apply greedy_loop_some in H as [m Hm].
  exists (take m run), (drop m run ++ rest). split; [|exact Hm].
  rewrite str_app_assoc, take_drop. reflexivity.
Qed.

Lemma lazy_dot_some {A} (k : string -> option A) s x :
  lazy_dot k s = Some x -> exists pre r, s = pre ++ r /\ k r = Some x.
Proof.
  induction s as [|c s IH]; simpl; destruct (k _) eqn:E; intros H.
  - injection H as <-. exists "", "". auto.
  - discriminate.
  - injection H as <-. exists "", (String c s). auto.
  - destruct (is_line_terminator c); [discriminate|].
    destruct (IH H) as (pre & r & -> & Hr). exists (String c pre), r. auto.
Qed.

Lemma strip_prefix_some p s r : strip_prefix p s = Some r -> s = p ++ r.
Proof.
  revert s; induction p as [|a p IH]; intros [|b s]; simpl; try discriminate.
  - now intros [= ->].
  - now intros [= ->].
  - destruct (Ascii.eqb_spec a b) as [<-|]; [|discriminate].
    intros H. now rewrite (IH _ H).
Qed.

Lemma strip_prefix_app p r : strip_prefix p (p ++ r) = Some r.
Proof. induction p as [|a p IH]; simpl; [reflexivity|]. now rewrite Ascii.eqb_refl. Qed.

Lemma first_match_some pats s x :
  first_match pats s = Some x ->
  exists p, In p pats /\ exists y, search (fun _ r => p r) s = Some y.
Proof.
  induction pats as [|p ps IH]; simpl; [discriminate|].
  destruct (search _ s) eqn:E.
  - intros _. exists p. eauto.
  - intros H. destruct (IH H) as (q & Hq & Hy). eauto.
Qed.

Lemma first_match_complete pats s p y :
  In p pats -> search (fun _ r => p r) s = Some y -> exists x, first_match pats s = Some x.
Proof.
  induction pats as [|q ps IH]; simpl; [easy|].
  intros [->|Hin] Hs.
  - rewrite Hs. eauto.
  - destruct (search (fun _ r => q r) s); [eauto | exact (IH Hin Hs)].
Qed.

Lemma at_amp_eq lit c r :
  at_amp_lit_digits lit (String c r) =
  if q_or_amp c then
    match strip_prefix lit r with Some r1 => digits_capture r1 | None => None end
  else None.
Proof. reflexivity. Qed.

Lemma at_ids_opt_eq c r :
  at_productIds_opt (String c r) =
  if q_or_amp c then
    match strip_prefix "productId" r with
    | Some r1 =>
        let eq_digits r2 := match strip_prefix "=" r2 with
                            | Some r3 => digits_capture r3 | None => None end in
        match (match strip_prefix "s" r1 with Some r2 => eq_digits r2 | None => None end) with
        | Some x => Some x
        | None => eq_digits r1
        end
    | None => None
    end
  else None.
Proof. reflexivity. Qed.

(** [[?&]productIds=(\d+)] implies [[?&]productIds?=(\d+)] at the same place. *)
Lemma productIds_opt_of_ids r x :
  at_amp_lit_digits "productIds=" r = Some x -> at_productIds_opt r = Some x.
Proof.
  destruct r as [|c r]; [discriminate|].
  rewrite at_amp_eq, at_ids_opt_eq.
  destruct (q_or_amp c); [|discriminate].
  destruct (strip_prefix "productIds=" r) as [r1|] eqn:E; [|discriminate].
  apply strip_prefix_some in E as ->. intros H.
  change ("productIds=" ++ r1) with ("productId" ++ ("s" ++ ("=" ++ r1))).
  rewrite strip_prefix_app. cbv zeta. rewrite strip_prefix_app, strip_prefix_app, H. reflexivity.
Qed.

(** [[?&]productId=(\d+)] implies [[?&]productIds?=(\d+)] at the same place. *)
Lemma productIds_opt_of_id r x :
  at_amp_lit_digits "productId=" r = Some x -> at_productIds_opt r = Some x.
Proof.
  destruct r as [|c r]; [discriminate|].
  rewrite at_amp_eq, at_ids_opt_eq.
  destruct (q_or_amp c); [|discriminate].
  destruct (strip_prefix "productId=" r) as [r1|] eqn:E; [|discriminate].
  apply strip_prefix_some in E as ->. intros H.
  change ("productId=" ++ r1) with ("productId" ++ ("=" ++ r1)).
  rewrite strip_prefix_app. cbv zeta.
  change (strip_prefix "s" ("=" ++ r1)) with (@None string). cbv iota.
  cbv beta. rewrite strip_prefix_app. exact H.
Qed.

Lemma simple_pattern_covered p text y :
  In p patterns_simple -> search (fun _ r => p r) text = Some y ->
  exists q, In q urlPatterns /\ exists z, search (fun _ r => q r) text = Some z.
Proof.
  unfold patterns_simple, urlPatterns. cbn [In].
  intros Hp Hs. apply search_some_inv in Hs as (pre & r & -> & Hr).
  destruct Hp as [<-|[<-|[<-|[<-|[<-|[<-|[<-|[<-|[<-|[]]]]]]]]]].
  - exists at_productIds_opt. split; [now left|].
    apply (search_some _ pre r y). apply productIds_opt_of_ids. exact Hr.
  - exists at_productIds_opt. split; [now left|].
    apply (search_some _ pre r y). apply productIds_opt_of_id. exact Hr.
  - exists at_item_html. split; [auto 10|]. eapply search_some. exact Hr.
  - exists at_item_end. split; [auto 10|]. eapply search_some. exact Hr.
  - exists (at_lit_digits "/product/"). split; [auto 10|]. eapply search_some. exact Hr.
  - exists (at_lit_digits "/i/"). split; [auto 10|]. eapply search_some. exact Hr.
  - exists at_productIds_opt. split; [now left|].
    unfold at_p_index in Hr.
    destruct (strip_prefix "/p/" r) as [r1|] eqn:E1; [|discriminate].
    apply strip_prefix_some in E1 as ->.
    apply greedy_some in Hr as (d & r2 & -> & Hk).
    destruct (strip_prefix "/index.html" r2) as [r3|] eqn:E3; [|discriminate].
    apply strip_prefix_some in E3 as ->.
    rewrite !str_app_assoc. eapply search_some. apply productIds_opt_of_ids. eassumption.
  - exists at_productIds_opt. split; [now left|].
    unfold at_ssr in Hr.
    destruct (strip_prefix "/ssr/" r) as [r1|] eqn:E1; [|discriminate].
    apply strip_prefix_some in E1 as ->.
    apply lazy_dot_some in Hr as (pre2 & r2 & -> & Hk).
    apply search_some_inv in Hk as (pre3 & r3 & -> & Hk).
    rewrite !str_app_assoc. eapply search_some. apply productIds_opt_of_ids. eassumption.
  - exists at_html_query. split; [auto 10|]. eapply search_some. exact Hr.
Qed.

(** C9 (counterexample): on the text "1234567890" the variants differ: the
    routes.ts version returns the bare digit run through its numeric
    fallback, the part_006 version has no fallback and returns null. *)
Lemma extractProductId_variants_differ :
  extractProductId Rich "1234567890" = Some "1234567890" /\
  extractProductId Simple "1234567890" = None.
Proof. split; vm_compute; reflexivity. Qed.

(** C9 (amended): the variants are not equal, but on a text that is its own
    target URL (no AliExpress URL is embedded in it), whenever the part_006
    version extracts an id, the routes.ts version extracts one too. *)
Theorem extractProductId_simple_then_rich text :
  targetUrl text = text ->
  extractProductId Simple text <> None -> extractProductId Rich text <> None.
Proof.
  cbn [extractProductId]. unfold extractProductId_simple, extractProductId_rich.
  intros Ht Hs. rewrite Ht.
  destruct (first_match patterns_simple text) as [x|] eqn:E; [|congruence].
  apply first_match_some in E as (p & Hp & y & Hy).
  destruct (simple_pattern_covered p text y Hp Hy) as (q & Hq & z & Hz).
  destruct (first_match_complete _ _ _ _ Hq Hz) as [w ->]. discriminate.
Qed.

End ExtractProofs.

Module HandlerProofs.
Import Re Json Http.
Local Open Scope list_scope.

(** The request conditions under which the spec says the route answers 400:
    a missing or empty url or credential, or a url naming none of the three
    AliExpress domains. *)
Definition rejected (req : request) : Prop :=
  Js.truthy (url req) = false \/ Js.truthy (appKey req) = false \/
  Js.truthy (appSecret req) = false \/ Js.truthy (trackingId req) = false \/
  Forall (fun d => Js.includes (Js.or_default (url req) "") d = false)
    ["aliexpress.com"; "alix.live"; "s.click.aliexpress.com"].

Lemma validate_rejected req : rejected req -> exists msg, validate req = Some msg.
Proof.
  unfold rejected, validate. intros H.
  destruct (Js.truthy (url req)), (Js.truthy (appKey req)), (Js.truthy (appSecret req)),
    (Js.truthy (trackingId req)); cbn [negb orb]; eauto.
  destruct H as [H|[H|[H|[H|H]]]]; try discriminate.
  apply Forall_inv in H as Ha; apply Forall_inv_tail in H.
  apply Forall_inv in H as Hb; apply Forall_inv_tail in H.
  apply Forall_inv in H as Hc.
  rewrite Ha, Hb, Hc. cbn. eauto.
Qed.


(** C4: a request that lacks a non-empty url or a credential, or whose url
    names none of the AliExpress domains, is answered 400 with a message by
    both handlers, before any network call; the url
    "https://example.com/foo" with all credentials gets the invalid-URL
    message. *)
Theorem validation_gate_no_network nts tt (wr : RoutesTs.world) (ws : Part006.world) req :
  rejected req ->
  (exists msg, RoutesTs.handler nts wr req = (Status400 msg, [])) /\
  (exists msg, Part006.handler nts tt ws req = (Status400 msg, [])) /\
  (url req = Some "https://example.com/foo" ->
   Js.truthy (appKey req) = true -> Js.truthy (appSecret req) = true ->
   Js.truthy (trackingId req) = true ->
   RoutesTs.handler nts wr req = (Status400 "Please provide a valid AliExpress URL", []) /\
   Part006.handler nts tt ws req = (Status400 "Please provide a valid AliExpress URL", [])).
Proof.
  intros H. destruct (validate_rejected req H) as [msg Hv].
  unfold RoutesTs.handler, Part006.handler. rewrite Hv.
  split; [eauto|]. split; [eauto|].
  intros Hu Hk Hs Ht. unfold validate in Hv.
  rewrite Hu, Hk, Hs, Ht in Hv. vm_compute in Hv. injection Hv as <-. auto.
Qed.

Lemma validate_none_url req :
  validate req = None -> exists u, url req = Some u /\ Js.truthy_str u = true.
Proof.
  unfold validate. destruct (url req) as [u|]; cbn; [|discriminate].
  destruct (Js.truthy_str u) eqn:E; cbn; [eauto|discriminate].
Qed.

Lemma or_default_url req u : validate req = None -> url req = Some u -> Js.or_default (url req) "" = u.
Proof.
  intros Hv Hu. destruct (validate_none_url req Hv) as (u' & Hu' & Ht).
  rewrite Hu in Hu'. injection Hu' as <-. rewrite Hu. cbn. now rewrite Ht.
Qed.

Lemma truthy_str_ne s : s <> "" -> Js.truthy_str s = true.
Proof. unfold Js.truthy_str. destruct (String.eqb_spec s ""); easy. Qed.

(** C2: once the gate is passed and a product id is extracted, both handlers
    answer 200 with that id, whatever the product-detail call, the page
    scrape and the affiliate calls return or throw (every field of the world
    but the redirect fetch is free). *)
Theorem handler_200_once_extracted nts tt (wr : RoutesTs.world) (ws : Part006.world) req u :
  validate req = None -> url req = Some u ->
  (forall pid,
     pickProductId Rich (fst (RoutesTs.resolveRedirects (RoutesTs.fetch_head wr) u)) u = Some pid ->
     pid <> "" ->
     exists r evs, RoutesTs.handler nts wr req = (Status200 r, evs) /\ RoutesTs.r_productId r = pid) /\
  (forall pid,
     pickProductId Simple (fst (Part006.resolveRedirects (Part006.fetch_head ws) u)) u = Some pid ->
     pid <> "" ->
     exists r evs, Part006.handler nts tt ws req = (Status200 r, evs) /\ Part006.r_productId r = pid).
Proof.
  intros Hv Hu. pose proof (or_default_url req u Hv Hu) as Hd.
  split; intros pid Hp Hne.
  - unfold RoutesTs.handler. rewrite Hv, Hd.
    destruct (RoutesTs.resolveRedirects (RoutesTs.fetch_head wr) u) as [f ev].
    cbn [fst] in Hp. rewrite Hp. cbn [Js.truthy Js.or_default negb].
    rewrite (truthy_str_ne pid Hne).
    destruct (Offers.generateAllOffers Rich (RoutesTs.affiliate wr) pid []) as [offers t].
    eexists _, _. split; reflexivity.
  - unfold Part006.handler. rewrite Hv, Hd.
    destruct (Part006.resolveRedirects (Part006.fetch_head ws) u) as [f ev].
    cbn [fst] in Hp. rewrite Hp. cbn [Js.truthy Js.or_default negb].
    rewrite (truthy_str_ne pid Hne).
    destruct (Offers.generateAllOffers Simple (Part006.affiliate ws) pid []) as [offers t].
    eexists _, _. split; reflexivity.
Qed.

Lemma rich_fallback text :
  Extract.first_match Extract.urlPatterns (Extract.targetUrl text) = None ->
  Extract.extractProductId Rich text = Extract.first_standalone_run None text.
Proof.
  intros H. cbn [Extract.extractProductId]. unfold Extract.extractProductId_rich.
  rewrite H. apply ExtractProofs.search_long_number.
Qed.

Lemma pick_none v f u :
  Extract.extractProductId v f = None -> Extract.extractProductId v u = None ->
  pickProductId v f u = None.
Proof. unfold pickProductId. intros -> ->. reflexivity. Qed.

(** C8 (amended): in routes.ts, a text on whose target URL no pattern
    matches gets the first standalone run of 10 to 20 digits of the whole
    text, or null; part_006 has no such fallback and gives null.  When the
    extraction gives null on both the resolved and the given URL, each
    handler answers 400 "Could not extract product ID from URL" (after the
    redirect fetch only). *)
Theorem extractProductId_fallback_400 nts tt (wr : RoutesTs.world) (ws : Part006.world) req u :
  validate req = None -> url req = Some u ->
  (forall text,
     Extract.first_match Extract.urlPatterns (Extract.targetUrl text) = None ->
     Extract.extractProductId Rich text = Extract.first_standalone_run None text) /\
  (forall text,
     Extract.first_match Extract.patterns_simple text = None ->
     Extract.extractProductId Simple text = None) /\
  (Extract.extractProductId Rich (fst (RoutesTs.resolveRedirects (RoutesTs.fetch_head wr) u)) = None ->
   Extract.extractProductId Rich u = None ->
   RoutesTs.handler nts wr req =
     (Status400 "Could not extract product ID from URL",
      snd (RoutesTs.resolveRedirects (RoutesTs.fetch_head wr) u))) /\
  (Extract.extractProductId Simple (fst (Part006.resolveRedirects (Part006.fetch_head ws) u)) = None ->
   Extract.extractProductId Simple u = None ->
   Part006.handler nts tt ws req =
     (Status400 "Could not extract product ID from URL",
      snd (Part006.resolveRedirects (Part006.fetch_head ws) u))).
Proof.
  intros Hv Hu. pose proof (or_default_url req u Hv Hu) as Hd.
  split; [exact rich_fallback|]. split.
  { intros text H. exact H. }
  split.
  - intros H1 H2. unfold RoutesTs.handler. rewrite Hv, Hd.
    destruct (RoutesTs.resolveRedirects (RoutesTs.fetch_head wr) u) as [f ev].
    cbn [fst snd] in *. rewrite (pick_none _ _ _ H1 H2). reflexivity.
  - intros H1 H2. unfold Part006.handler. rewrite Hv, Hd.
    destruct (Part006.resolveRedirects (Part006.fetch_head ws) u) as [f ev].
    cbn [fst snd] in *. rewrite (pick_none _ _ _ H1 H2). reflexivity.
Qed.

Lemma js_or_truthy a b : truthy b = true -> truthy (js_or a b) = true.
Proof. unfold js_or. destruct (truthy a) eqn:E; auto. Qed.

Lemma js_or_null a b :
  b = JNull \/ truthy b = true -> js_or a b = JNull \/ truthy (js_or a b) = true.
Proof. unfold js_or. destruct (truthy a) eqn:E; auto. Qed.

(** Reading a [let*] chain that returned [Some]: every step returned [Some]
    and no [if] threw. *)
Ltac bind_cases H :=
  repeat match type of H with
  | context [Json.bind ?o _] =>
      let E := fresh "E" in destruct o eqn:E; cbn [Json.bind] in H; [|discriminate H]
  | context [if ?b then None else _] => destruct b; [discriminate H|]
  end.

Lemma api_rich_shape nts resp a :
  RoutesTs.getProductDetailsFromApi nts resp = Some a ->
  truthy (RoutesTs.title a) = true /\
  (RoutesTs.imageUrl a = JNull \/ truthy (RoutesTs.imageUrl a) = true).
Proof.
  unfold RoutesTs.getProductDetailsFromApi. intros H. bind_cases H.
  injection H as <-. cbn [RoutesTs.title RoutesTs.imageUrl]. split.
  - apply js_or_truthy. reflexivity.
  - apply js_or_null, js_or_null. now left.
Qed.

Lemma api_simple_shape nts resp a :
  Part006.getProductDetailsFromApi nts resp = Some a ->
  truthy (Part006.title a) = true /\ Part006.imageUrl a = JNull.
Proof.
  unfold Part006.getProductDetailsFromApi. intros H. bind_cases H.
  injection H as <-. cbn [Part006.title Part006.imageUrl]. split; [|reflexivity].
  apply js_or_truthy. reflexivity.
Qed.

Lemma eq_str_spec t s : eq_str t s = true <-> t = JStr s.
Proof.
  destruct t; cbn; split; intros H; try discriminate; try (injection H as <-).
  - apply String.eqb_eq in H. now subst.
  - apply String.eqb_refl.
Qed.

Lemma backfill_rich_spec (d : RoutesTs.ProductData) sc :
  RoutesTs.title d = JStr "" \/ truthy (RoutesTs.title d) = true ->
  RoutesTs.imageUrl d = JNull \/ truthy (RoutesTs.imageUrl d) = true ->
  let d' := RoutesTs.backfill d sc in
  RoutesTs.price d' = RoutesTs.price d /\
  RoutesTs.originalPrice d' = RoutesTs.originalPrice d /\
  RoutesTs.discount d' = RoutesTs.discount d /\
  RoutesTs.storeName d' = RoutesTs.storeName d /\
  RoutesTs.evaluateRate d' = RoutesTs.evaluateRate d /\
  RoutesTs.shopUrl d' = RoutesTs.shopUrl d /\
  RoutesTs.categoryName d' = RoutesTs.categoryName d /\
  RoutesTs.commissionRate d' = RoutesTs.commissionRate d /\
  RoutesTs.orders d' = RoutesTs.orders d /\
  RoutesTs.shipping_fees d' = RoutesTs.shipping_fees d /\
  (RoutesTs.title d = JStr "" \/ RoutesTs.title d = JStr "Unknown Product" \/
   RoutesTs.title d = JStr "Unable to extract title" -> RoutesTs.title d' = s_title sc) /\
  (~ (RoutesTs.title d = JStr "" \/ RoutesTs.title d = JStr "Unknown Product" \/
      RoutesTs.title d = JStr "Unable to extract title") -> RoutesTs.title d' = RoutesTs.title d) /\
  (RoutesTs.imageUrl d = JNull -> RoutesTs.imageUrl d' = s_imageUrl sc) /\
  (RoutesTs.imageUrl d <> JNull -> RoutesTs.imageUrl d' = RoutesTs.imageUrl d).
Proof.
  intros Ht Hi. cbv zeta. unfold RoutesTs.backfill.
  assert (Hn : RoutesTs.needsTitle (RoutesTs.title d) = true <->
               RoutesTs.title d = JStr "" \/ RoutesTs.title d = JStr "Unknown Product" \/
               RoutesTs.title d = JStr "Unable to extract title").
  { unfold RoutesTs.needsTitle. rewrite !orb_true_iff, !eq_str_spec.
    destruct Ht as [->|Ht]; [split; auto|].
    rewrite Ht. cbn [negb]. split; [intros [[H|H]|H]; [discriminate|auto|auto]|].
    intros [H|[H|H]]; auto. rewrite H in Ht. discriminate. }
  assert (Hm : negb (truthy (RoutesTs.imageUrl d)) = true <-> RoutesTs.imageUrl d = JNull).
  { destruct Hi as [->|Hi]; [split; auto|]. rewrite Hi. split; [discriminate|].
    intros H. rewrite H in Hi. discriminate. }
  destruct (RoutesTs.needsTitle (RoutesTs.title d)) eqn:Et;
    [change (RoutesTs.imageUrl (RoutesTs.setTitle d (s_title sc))) with (RoutesTs.imageUrl d)|];
    destruct (negb (truthy (RoutesTs.imageUrl d))) eqn:Ei;
    cbn [RoutesTs.setTitle RoutesTs.setImageUrl RoutesTs.title RoutesTs.price
         RoutesTs.originalPrice RoutesTs.discount RoutesTs.storeName RoutesTs.evaluateRate
         RoutesTs.shopUrl RoutesTs.categoryName RoutesTs.commissionRate RoutesTs.orders
         RoutesTs.imageUrl RoutesTs.shipping_fees];
    repeat split; intros; try reflexivity;
    first [ exfalso; apply H, Hn; reflexivity
          | exfalso; apply H, Hm; reflexivity
          | exfalso; apply Hn in H; discriminate
          | exfalso; apply Hm in H; discriminate ].
Qed.

Lemma backfill_simple_spec (d : Part006.ProductData) sc :
  Part006.title d = JStr "" \/ truthy (Part006.title d) = true ->
  Part006.imageUrl d = JNull ->
  let d' := Part006.backfill d sc in
  Part006.price d' = Part006.price d /\
  Part006.originalPrice d' = Part006.originalPrice d /\
  Part006.discount d' = Part006.discount d /\
  Part006.storeName d' = Part006.storeName d /\
  (Part006.title d = JStr "" \/ Part006.title d = JStr "Unknown Product" ->
   Part006.title d' = s_title sc) /\
  (~ (Part006.title d = JStr "" \/ Part006.title d = JStr "Unknown Product") ->
   Part006.title d' = Part006.title d) /\
  (Part006.imageUrl d = JNull -> Part006.imageUrl d' = s_imageUrl sc) /\
  (Part006.imageUrl d <> JNull -> Part006.imageUrl d' = Part006.imageUrl d).
Proof.
  intros Ht Hi. cbv zeta. unfold Part006.backfill.
  assert (Hn : Part006.needsTitle (Part006.title d) = true <->
               Part006.title d = JStr "" \/ Part006.title d = JStr "Unknown Product").
  { unfold Part006.needsTitle. rewrite !orb_true_iff, !eq_str_spec.
    destruct Ht as [->|Ht]; [split; auto|].
    rewrite Ht. cbn [negb]. split; [intros [H|H]; [discriminate|auto]|].
    intros [H|H]; auto. rewrite H in Ht. discriminate. }
  destruct (Part006.needsTitle (Part006.title d)) eqn:Et;
    [change (Part006.imageUrl (Part006.setTitle d (s_title sc))) with (Part006.imageUrl d)|];
    rewrite Hi; cbn [truthy negb Part006.setTitle Part006.setImageUrl Part006.title
      Part006.price Part006.originalPrice Part006.discount Part006.storeName Part006.imageUrl];
    repeat split; intros; try reflexivity; try congruence;
    first [ exfalso; apply H, Hn; reflexivity
          | exfalso; apply Hn in H; discriminate ].
Qed.

(** C6 (amended).  The scrape backfill pass, after either outcome of the API
    call and any outcome of the scrape, changes only title and imageUrl.
    In routes.ts the title is replaced exactly when it is empty, "Unknown
    Product" or "Unable to extract title"; in part_006 exactly when it is
    empty or "Unknown Product" (a title "Unable to extract title" is kept).
    In both, imageUrl is replaced exactly when it is null, and every other
    field (price, originalPrice, discount, storeName, and in routes.ts
    evaluateRate, shopUrl, categoryName, commissionRate, orders,
    shipping_fees) keeps its value. *)
Theorem scrape_backfill_frame nts tt resp page resp' body :
  (let d := match RoutesTs.getProductDetailsFromApi nts resp with
            | Some a => a | None => RoutesTs.initialProductData end in
   let sc := RoutesTs.getProductDetails page in
   let d' := RoutesTs.backfill d sc in
   RoutesTs.price d' = RoutesTs.price d /\
   RoutesTs.originalPrice d' = RoutesTs.originalPrice d /\
   RoutesTs.discount d' = RoutesTs.discount d /\
   RoutesTs.storeName d' = RoutesTs.storeName d /\
   RoutesTs.evaluateRate d' = RoutesTs.evaluateRate d /\
   RoutesTs.shopUrl d' = RoutesTs.shopUrl d /\
   RoutesTs.categoryName d' = RoutesTs.categoryName d /\
   RoutesTs.commissionRate d' = RoutesTs.commissionRate d /\
   RoutesTs.orders d' = RoutesTs.orders d /\
   RoutesTs.shipping_fees d' = RoutesTs.shipping_fees d /\
   (RoutesTs.title d = JStr "" \/ RoutesTs.title d = JStr "Unknown Product" \/
    RoutesTs.title d = JStr "Unable to extract title" -> RoutesTs.title d' = s_title sc) /\
   (~ (RoutesTs.title d = JStr "" \/ RoutesTs.title d = JStr "Unknown Product" \/
       RoutesTs.title d = JStr "Unable to extract title") -> RoutesTs.title d' = RoutesTs.title d) /\
   (RoutesTs.imageUrl d = JNull -> RoutesTs.imageUrl d' = s_imageUrl sc) /\
   (RoutesTs.imageUrl d <> JNull -> RoutesTs.imageUrl d' = RoutesTs.imageUrl d)) /\
  (let d := match Part006.getProductDetailsFromApi nts resp' with
            | Some a => a | None => Part006.initialProductData end in
   let sc := Part006.getProductDetails tt body in
   let d' := Part006.backfill d sc in
   Part006.price d' = Part006.price d /\
   Part006.originalPrice d' = Part006.originalPrice d /\
   Part006.discount d' = Part006.discount d /\
   Part006.storeName d' = Part006.storeName d /\
   (Part006.title d = JStr "" \/ Part006.title d = JStr "Unknown Product" ->
    Part006.title d' = s_title sc) /\
   (~ (Part006.title d = JStr "" \/ Part006.title d = JStr "Unknown Product") ->
    Part006.title d' = Part006.title d) /\
   (Part006.imageUrl d = JNull -> Part006.imageUrl d' = s_imageUrl sc) /\
   (Part006.imageUrl d <> JNull -> Part006.imageUrl d' = Part006.imageUrl d)).
Proof.
  split; cbv zeta.
  - apply backfill_rich_spec;
      destruct (RoutesTs.getProductDetailsFromApi nts resp) as [a|] eqn:E;
      try (apply api_rich_shape in E; tauto); cbn; auto.
  - apply backfill_simple_spec;
      destruct (Part006.getProductDetailsFromApi nts resp') as [a|] eqn:E;
      try (apply api_simple_shape in E; tauto); cbn; auto.
Qed.

(** C6 (counterexample).  part_006: the API returns the title "Unable to
    extract title" and the item page the subject "Phone case"; the scrape
    pass keeps the placeholder, and the 200 reply's title is "Unable to
    extract title". *)
Lemma simple_keeps_unable_title :
  Part006.getProductDetails Spec.tt0 (Part006.item_page Spec.world_placeholder_title "1005001")
    = {| s_title := JStr "Phone case"; s_imageUrl := JNull |} /\
  match fst (Part006.handler Spec.nts0 Spec.tt0 Spec.world_placeholder_title Spec.itemRequest) with
  | Status200 r => Part006.r_productId r = "1005001" /\
                   Part006.r_title r = JStr "Unable to extract title"
  | _ => False
  end.
Proof. vm_compute. split; [reflexivity | split; reflexivity]. Qed.

Lemma js_or_falsy a b : truthy a = false -> js_or a b = b.
Proof. unfold js_or. now intros ->. Qed.

Lemma truthy_pct s : truthy (JStr (s ++ "%")) = true.
Proof. now destruct s. Qed.

Lemma discount_rule_eq nts digits op sp :
  js_or (computeDiscount nts digits (JStr "") op sp) (JStr "0%") =
  Spec.discountRule nts digits op sp.
Proof.
  unfold computeDiscount, Spec.discountRule, Spec.parsedPrice.
  change (truthy (JStr "")) with false. cbn [negb andb].
  destruct (eq_str op "N/A"), (eq_str sp "N/A"); cbn [negb andb orb]; try reflexivity.
  destruct (call_toString op) as [os|], (call_toString sp) as [ss|];
    cbv zeta; cbn [gt0]; rewrite ?andb_false_r; try reflexivity.
  destruct (gt0 (parseFloat (keep_numeric os)) && gt0 (parseFloat (keep_numeric ss)));
    [unfold js_or; now rewrite truthy_pct | reflexivity].
Qed.

Lemma rich_api_discount nts resp a :
  RoutesTs.getProductDetailsFromApi nts resp = Some a ->
  exists data r0, resp = Some data /\
    get data "aliexpress_affiliate_productdetail_get_response" = Some r0 /\
    let products := oget (oget (oget (oget r0 "resp_result") "result") "products") "product" in
    let product := match products with JArr l => hd JUndefined l | _ => products end in
    exists td tsp asp top op,
      get product "target_discount" = Some td /\
      get product "target_sale_price" = Some tsp /\ get product "app_sale_price" = Some asp /\
      get product "target_original_price" = Some top /\ get product "original_price" = Some op /\
      RoutesTs.discount a =
        js_or (computeDiscount nts 1 (js_or td (JStr "")) (js_or top (js_or op (JStr "N/A")))
                 (js_or tsp (js_or asp (JStr "N/A")))) (JStr "0%").
Proof.
  unfold RoutesTs.getProductDetailsFromApi. intros H. bind_cases H.
  injection H as <-. do 2 eexists. split; [reflexivity|]. split; [eassumption|].
  cbv zeta. do 5 eexists. repeat split; eassumption.
Qed.

Lemma simple_api_discount nts resp a :
  Part006.getProductDetailsFromApi nts resp = Some a ->
  exists data r0, resp = Some data /\
    get data "aliexpress_affiliate_productdetail_get_response" = Some r0 /\
    let products := oget (oget (oget (oget r0 "resp_result") "result") "products") "product" in
    let product := match products with JArr l => hd JUndefined l | _ => products end in
    exists td tsp asp top op,
      get product "target_discount" = Some td /\
      get product "target_sale_price" = Some tsp /\ get product "app_sale_price" = Some asp /\
      get product "target_original_price" = Some top /\ get product "original_price" = Some op /\
      Part006.discount a =
        js_or (computeDiscount nts 0 (js_or td (JStr "")) (js_or top (js_or op (JStr "N/A")))
                 (js_or tsp (js_or asp (JStr "N/A")))) (JStr "0%").
Proof.
  unfold Part006.getProductDetailsFromApi. intros H. bind_cases H.
  injection H as <-. do 2 eexists. split; [reflexivity|]. split; [eassumption|].
  cbv zeta. do 5 eexists. repeat split; eassumption.
Qed.

Lemma wrapped_discount fs (data r0 td tsp asp top op : jsval) :
  Some (Spec.wrapProduct (JObj fs)) = Some data ->
  get data "aliexpress_affiliate_productdetail_get_response" = Some r0 ->
  let products := oget (oget (oget (oget r0 "resp_result") "result") "products") "product" in
  let product := match products with JArr l => hd JUndefined l | _ => products end in
  get product "target_discount" = Some td ->
  get product "target_sale_price" = Some tsp -> get product "app_sale_price" = Some asp ->
  get product "target_original_price" = Some top -> get product "original_price" = Some op ->
  td = field "target_discount" fs /\
  js_or top (js_or op (JStr "N/A")) = Spec.originalPriceOf fs /\
  js_or tsp (js_or asp (JStr "N/A")) = Spec.salePriceOf fs.
Proof.
  intros Hd Hr. injection Hd as <-. injection Hr as <-. cbv zeta.
  cbn [oget get field String.eqb Spec.wrapProduct hd Ascii.eqb Bool.eqb].
  intros [= <-] [= <-] [= <-] [= <-] [= <-]. now repeat split.
Qed.

(** C7 (amended).  When the product carries no (truthy) [target_discount],
    the discount of routes.ts is [Spec.discountRule] with one decimal and
    that of part_006 the same rule with no decimal: "0%" when a price is
    "N/A", cannot be parsed, or is not strictly positive, otherwise
    [((original - sale) / original * 100).toFixed(digits) + "%"], computed
    in binary64 as JavaScript does.  Original "$40.00 USD" and sale
    "$20.00 USD" give "50.0%" in routes.ts and "50%" in part_006; original
    "$0.48" and sale "$0.03" give "93.7%" in routes.ts, and original
    "$10.00" and sale "$1.05" give "89%" in part_006. *)
Theorem discount_computed nts fs :
  truthy (field "target_discount" fs) = false ->
  (forall a, RoutesTs.getProductDetailsFromApi nts (Some (Spec.wrapProduct (JObj fs))) = Some a ->
     RoutesTs.discount a = Spec.discountRule nts 1 (Spec.originalPriceOf fs) (Spec.salePriceOf fs)) /\
  (forall b, Part006.getProductDetailsFromApi nts (Some (Spec.wrapProduct (JObj fs))) = Some b ->
     Part006.discount b = Spec.discountRule nts 0 (Spec.originalPriceOf fs) (Spec.salePriceOf fs)) /\
  Spec.discountRule nts 1 (JStr "$40.00 USD") (JStr "$20.00 USD") = JStr "50.0%" /\
  Spec.discountRule nts 0 (JStr "$40.00 USD") (JStr "$20.00 USD") = JStr "50%" /\
  Spec.discountRule nts 1 (JStr "$0.48") (JStr "$0.03") = JStr "93.7%" /\
  Spec.discountRule nts 0 (JStr "$10.00") (JStr "$1.05") = JStr "89%" /\
  (forall digits v, Spec.discountRule nts digits (JStr "N/A") v = JStr "0%") /\
  (forall digits v, Spec.discountRule nts digits v (JStr "N/A") = JStr "0%").
Proof.
  intros Htd. split; [|split; [|split; [|split; [|split; [|split; [|split]]]]]].
  - intros a H. apply rich_api_discount in H.
    destruct H as (data & r0 & Hd & Hr & td & tsp & asp & top & op & E1 & E2 & E3 & E4 & E5 & ->).
    destruct (wrapped_discount fs data r0 td tsp asp top op Hd Hr E1 E2 E3 E4 E5) as (-> & -> & ->).
    rewrite (js_or_falsy _ _ Htd). apply discount_rule_eq.
  - intros b H. apply simple_api_discount in H.
    destruct H as (data & r0 & Hd & Hr & td & tsp & asp & top & op & E1 & E2 & E3 & E4 & E5 & ->).
    destruct (wrapped_discount fs data r0 td tsp asp top op Hd Hr E1 E2 E3 E4 E5) as (-> & -> & ->).
    rewrite (js_or_falsy _ _ Htd). apply discount_rule_eq.
  - vm_compute. reflexivity.
  - vm_compute. reflexivity.
  - vm_compute. reflexivity.
  - vm_compute. reflexivity.
  - intros digits v. reflexivity.
  - intros digits v. unfold Spec.discountRule. now rewrite orb_true_r.
Qed.

(** C7 (counterexample).  part_006 renders the computed discount with no
    decimal: original "$3.00" and sale "$2.00" give "33%", where routes.ts
    gives "33.3%". *)
Lemma simple_discount_no_decimal :
  option_map Part006.discount
    (Part006.getProductDetailsFromApi Spec.nts0 (Some (Spec.wrapProduct Spec.product_3_2)))
    = Some (JStr "33%") /\
  option_map RoutesTs.discount
    (RoutesTs.getProductDetailsFromApi Spec.nts0 (Some (Spec.wrapProduct Spec.product_3_2)))
    = Some (JStr "33.3%").
Proof. vm_compute. split; reflexivity. Qed.

(** C8 (counterexample).  On the URL "https://www.aliexpress.com/x/1234567890"
    no pattern of part_006 matches and the text holds the standalone run
    "1234567890", yet part_006's extractProductId returns null and its
    handler answers 400, where routes.ts falls back to the run and answers
    200 with it. *)
Lemma simple_no_digit_fallback :
  Extract.first_match Extract.patterns_simple "https://www.aliexpress.com/x/1234567890" = None /\
  Extract.first_standalone_run None "https://www.aliexpress.com/x/1234567890" = Some "1234567890" /\
  Extract.extractProductId Simple "https://www.aliexpress.com/x/1234567890" = None /\
  Part006.handler Spec.nts0 Spec.tt0 Spec.world_simple_offline Spec.bareDigitsRequest =
    (Status400 "Could not extract product ID from URL",
     [EvResolve "https://www.aliexpress.com/x/1234567890"]) /\
  match fst (RoutesTs.handler Spec.nts0 Spec.world_rich_offline Spec.bareDigitsRequest) with
  | Status200 r => RoutesTs.r_productId r = "1234567890"
  | _ => False
  end.
Proof. vm_compute. repeat split. Qed.

(** C10 (the part_006 case).  A page whose subject is blank ("   ") is
    truthy before [.trim()], so part_006's getProductDetails returns the
    empty title, and with the API down the 200 reply's title is empty. *)
Lemma simple_blank_subject_title :
  Part006.getProductDetails Spec.tt0 (Part006.item_page Spec.world_blank_subject "1005001")
    = {| s_title := JStr ""; s_imageUrl := JNull |} /\
  match fst (Part006.handler Spec.nts0 Spec.tt0 Spec.world_blank_subject Spec.itemRequest) with
  | Status200 r => Part006.r_title r = JStr ""
  | _ => False
  end.
Proof. vm_compute. split; reflexivity. Qed.

Lemma truthy_jstr s : truthy (JStr s) = true -> s <> "".
Proof. cbn. unfold Js.truthy_str. destruct (String.eqb_spec s ""); easy. Qed.

Lemma js_or_str_default t d :
  (truthy t = true -> exists s, t = JStr s) -> d <> "" ->
  exists s, js_or t (JStr d) = JStr s /\ s <> "".
Proof.
  intros Ht Hd. unfold js_or. destruct (truthy t) eqn:E.
  - destruct (Ht eq_refl) as [s ->]. exists s. split; [reflexivity|]. now apply truthy_jstr.
  - now exists d.
Qed.

Lemma js_or_str_null t :
  (truthy t = true -> exists s, t = JStr s) ->
  js_or t JNull = JNull \/ exists s, js_or t JNull = JStr s /\ s <> "".
Proof.
  intros Ht. unfold js_or. destruct (truthy t) eqn:E; [|now left].
  right. destruct (Ht eq_refl) as [s ->]. exists s. split; [reflexivity|]. now apply truthy_jstr.
Qed.

Lemma rich_scrape_shape page :
  (exists s, s_title (RoutesTs.getProductDetails page) = JStr s /\ s <> "") /\
  (s_imageUrl (RoutesTs.getProductDetails page) = JNull \/
   exists i, s_imageUrl (RoutesTs.getProductDetails page) = JStr i /\ i <> "").
Proof.
  unfold RoutesTs.getProductDetails.
  destruct page as [pg|]; [destruct (RoutesTs.scrapePage pg) as [r|] eqn:H|];
    [| cbn; split; [eexists; split; [reflexivity|discriminate] | now left]
     | cbn; split; [eexists; split; [reflexivity|discriminate] | now left]].
  unfold RoutesTs.scrapePage in H.
  destruct (fold_left RoutesTs.runParamsStep (RoutesTs.runParams pg) (JStr "", JStr ""))
    as [title0 image0].
  bind_cases H. injection H as <-. cbn [s_title s_imageUrl]. split.
  - apply js_or_str_default; [|discriminate]. intros Tt. revert E.
    match goal with |- (if truthy ?t1 then _ else _) = Some _ -> _ =>
      generalize t1; intros x;
      destruct (truthy x) eqn:T; [destruct x; intros E; try discriminate E; injection E as <-; eauto
                                  | intros E; injection E as <-; congruence] end.
  - apply js_or_str_null. intros Tt. revert E0.
    match goal with |- (if truthy ?t1 then _ else _) = Some _ -> _ =>
      generalize t1; intros x;
      destruct (truthy x) eqn:T; [destruct x; intros E0; try discriminate E0; injection E0 as <-; eauto
                                  | intros E0; injection E0 as <-; congruence] end.
Qed.

(** X1.  routes.ts: getProductDetails, on any outcome of the page fetch,
    returns a non-empty string title ("AliExpress Product" when nothing
    could be scraped) and an imageUrl that is null or a non-empty string;
    and the title of every 200 reply of its handler is not the empty
    string. *)
Theorem rich_title_never_empty nts :
  (forall page,
     (exists s, s_title (RoutesTs.getProductDetails page) = JStr s /\ s <> "") /\
     (s_imageUrl (RoutesTs.getProductDetails page) = JNull \/
      exists i, s_imageUrl (RoutesTs.getProductDetails page) = JStr i /\ i <> "")) /\
  (forall w req r evs,
     RoutesTs.handler nts w req = (Status200 r, evs) -> RoutesTs.r_title r <> JStr "").
Proof.
  split; [exact rich_scrape_shape|].
  intros w req r evs H. unfold RoutesTs.handler in H.
  destruct (validate req); [discriminate|].
  destruct (RoutesTs.resolveRedirects (RoutesTs.fetch_head w) (Js.or_default (url req) ""))
    as [f ev1].
  destruct (negb (Js.truthy (pickProductId Rich f (Js.or_default (url req) "")))); [discriminate|].
  match type of H with context [Offers.generateAllOffers ?v ?o ?p ?t] =>
    destruct (Offers.generateAllOffers v o p t) as [offers t'] end.
  injection H as <- _. cbn [RoutesTs.r_title].
  match goal with |- RoutesTs.title (RoutesTs.backfill ?d (RoutesTs.getProductDetails ?pg)) <> _ =>
    pose proof (rich_scrape_shape pg) as [[s [Hs Hne]] _];
    assert (Hd : RoutesTs.title d = JStr "" \/ truthy (RoutesTs.title d) = true);
    [| assert (Hi : RoutesTs.imageUrl d = JNull \/ truthy (RoutesTs.imageUrl d) = true);
       [| pose proof (backfill_rich_spec d (RoutesTs.getProductDetails pg) Hd Hi) as B;
          cbv zeta in B; destruct B as (_&_&_&_&_&_&_&_&_&_&Hy&Hn&_);
          set (t := RoutesTs.title d) in * ] ] end.
  - match goal with |- context [RoutesTs.getProductDetailsFromApi ?n ?x] =>
      destruct (RoutesTs.getProductDetailsFromApi n x) as [a|] eqn:E end;
      [apply api_rich_shape in E; tauto | now left].
  - match goal with |- context [RoutesTs.getProductDetailsFromApi ?n ?x] =>
      destruct (RoutesTs.getProductDetailsFromApi n x) as [a|] eqn:E end;
      [apply api_rich_shape in E; tauto | now left].
  - destruct Hd as [H0|H0].
    + rewrite Hy by (left; exact H0). rewrite Hs. congruence.
    + destruct (eq_str t "Unknown Product" || eq_str t "Unable to extract title") eqn:C.
      * apply orb_true_iff in C. rewrite !eq_str_spec in C.
        rewrite Hy by tauto. rewrite Hs. congruence.
      * rewrite Hn.
        -- intros X. rewrite X in H0. discriminate.
        -- intros [X|[X|X]]; rewrite X in *; discriminate.
Qed.

End HandlerProofs.

(** * Instances of the theorems on concrete inputs *)
Module Witnesses.
Import Re Json Http Spec Signature.
Local Open Scope list_scope.

(** A stand-in digest, the same for every key and message. *)
Definition hmac0 (_ _ : string) : list Byte.byte := [Byte.x0a].

Lemma generateApiSignature_sorted_concat_witness :
  generateApiSignature hmac0 [("b", "2"); ("a", "1")] "secret" =
    toUpperCase (hex (hmac0 "secret" (concat_pairs [("a", "1"); ("b", "2")]))) /\
  generateApiSignature hmac0 [("a", "1"); ("b", "2")] "secret" =
    toUpperCase (hex (hmac0 "secret" (concat_pairs [("a", "1"); ("b", "2")]))).
Proof.
  apply (SignatureProofs.generateApiSignature_sorted_concat hmac0
           [("b", "2"); ("a", "1")] [("a", "1"); ("b", "2")] "secret" [("a", "1"); ("b", "2")]).
  - constructor; [cbn; intros [H|[]]; discriminate | constructor; [intros []|constructor]].
  - constructor; [cbn; intros [H|[]]; discriminate | constructor; [intros []|constructor]].
  - intros k. cbn [lookup].
    destruct (String.eqb k "b") eqn:Eb, (String.eqb k "a") eqn:Ea; try reflexivity;
      apply String.eqb_eq in Eb, Ea; subst; discriminate.
  - apply perm_swap.
  - repeat constructor.
Defined.

Lemma validation_gate_no_network_witness :
  HandlerProofs.rejected foreignRequest /\
  RoutesTs.handler nts0 world_rich_offline foreignRequest =
    (Status400 "Please provide a valid AliExpress URL", []) /\
  Part006.handler nts0 tt0 world_simple_offline foreignRequest =
    (Status400 "Please provide a valid AliExpress URL", []).
Proof.
  assert (Hr : HandlerProofs.rejected foreignRequest).
  { right; right; right; right. repeat constructor. }
  split; [exact Hr|].
  destruct (HandlerProofs.validation_gate_no_network nts0 tt0 world_rich_offline
              world_simple_offline foreignRequest Hr) as (_ & _ & H).
  apply H; reflexivity.
Defined.

Lemma handler_200_once_extracted_witness :
  (exists r evs, RoutesTs.handler nts0 world_rich_offline itemRequest = (Status200 r, evs) /\
                 RoutesTs.r_productId r = "1005001") /\
  (exists r evs, Part006.handler nts0 tt0 world_simple_offline itemRequest = (Status200 r, evs) /\
                 Part006.r_productId r = "1005001").
Proof.
  destruct (HandlerProofs.handler_200_once_extracted nts0 tt0 world_rich_offline
              world_simple_offline itemRequest "https://www.aliexpress.com/item/1005001.html"
              ltac:(vm_compute; reflexivity) eq_refl) as [H1 H2].
  split; [apply H1 | apply H2]; try discriminate; vm_compute; reflexivity.
Defined.

Lemma extractProductId_fallback_400_witness :
  validate bareDigitsRequest = None /\
  Part006.handler nts0 tt0 world_simple_offline bareDigitsRequest =
    (Status400 "Could not extract product ID from URL",
     snd (Part006.resolveRedirects (Part006.fetch_head world_simple_offline)
            "https://www.aliexpress.com/x/1234567890")).
Proof.
  split; [vm_compute; reflexivity|].
  destruct (HandlerProofs.extractProductId_fallback_400 nts0 tt0 world_rich_offline
              world_simple_offline bareDigitsRequest "https://www.aliexpress.com/x/1234567890"
              ltac:(vm_compute; reflexivity) eq_refl) as (_ & _ & _ & H).
  apply H; vm_compute; reflexivity.
Defined.

Lemma extractProductId_simple_then_rich_witness :
  Extract.extractProductId Simple "/item/123.html" = Some "123" /\
  Extract.extractProductId Rich "/item/123.html" <> None.
Proof.
  split; [vm_compute; reflexivity|].
  apply ExtractProofs.extractProductId_simple_then_rich;
    [vm_compute; reflexivity | vm_compute; discriminate].
Defined.

Lemma discount_computed_witness :
  option_map RoutesTs.discount
    (RoutesTs.getProductDetailsFromApi nts0 (Some (wrapProduct (JObj fields_40_20))))
    = Some (JStr "50.0%") /\
  option_map Part006.discount
    (Part006.getProductDetailsFromApi nts0 (Some (wrapProduct (JObj fields_40_20))))
    = Some (JStr "50%").
Proof.
  split.
  - destruct (RoutesTs.getProductDetailsFromApi nts0 (Some (wrapProduct (JObj fields_40_20))))
      as [a|] eqn:E; [|vm_compute in E; discriminate].
    destruct (HandlerProofs.discount_computed nts0 fields_40_20 eq_refl)
      as (H1 & _ & H3 & _).
    cbn [option_map]. rewrite (H1 a E). f_equal; exact H3.
  - destruct (Part006.getProductDetailsFromApi nts0 (Some (wrapProduct (JObj fields_40_20))))
      as [b|] eqn:E; [|vm_compute in E; discriminate].
    destruct (HandlerProofs.discount_computed nts0 fields_40_20 eq_refl)
      as (_ & H2 & _ & H4 & _).
    cbn [option_map]. rewrite (H2 b E). f_equal; exact H4.
Defined.

End Witnesses.

(** * Binary64 arithmetic

    Rounding bounds for [round], and the sign of the discount value
    [(original - sale) / original * 100] computed on two positive doubles. *)

Module DoubleProofs.
Import Json.
Local Open Scope Q_scope.































End DoubleProofs.


(** * Further properties of the route modules *)
Module ExtraProofs.
Import Re Extract Json Http.
Local Open Scope list_scope.

Lemma attempts_calls tbl bs its :
  Offers.Attempts tbl bs its ->
  List.length tbl <= List.length (concat bs) <= 2 * List.length tbl.
Proof.
  induction 1 as [|nm url sec rest b bs it its Ha Hrest IH]; cbn [concat List.length]; [lia|].
  rewrite length_app. inversion Ha; subst; cbn [List.length]; lia.
Qed.

Lemma offers_calls v o pid items t :
  Offers.generateAllOffers v o pid [] = (items, t) -> 8 <= List.length t <= 16.
Proof.
  intros E. destruct (OffersProofs.offers_loop_spec _ _ _ _ _ E) as [_ [bs [Ht Hatt]]].
  cbn [app] in Ht. subst t. pose proof (attempts_calls _ _ _ Hatt) as Hl.
  rewrite OffersProofs.table_length in Hl. lia.
Qed.

Lemma validated_url req :
  validate req = None -> exists u, url req = Some u /\ Js.truthy_str u = true.
Proof.
  unfold validate. destruct (url req) as [u|]; [|cbn; discriminate].
  cbn [Js.truthy]. destruct (Js.truthy_str u) eqn:T; [intros _; now exists u|cbn; discriminate].
Qed.

(** The network calls of a 200 reply: the redirect fetch, the product-detail
    call, the item-page fetch, then between 8 and 16 affiliate-link
    generations (one or two per offer). *)
Theorem handler_network_calls nts tt :
  (forall w req r evs,
     RoutesTs.handler nts w req = (Status200 r, evs) ->
     exists u t, url req = Some u /\
       evs = [EvResolve (match RoutesTs.first_url u with Some m => m | None => u end);
              EvApiDetail (RoutesTs.r_productId r);
              EvScrape ("https://www.aliexpress.com/item/" ++ RoutesTs.r_productId r ++ ".html")]
             ++ offer_events t /\
       8 <= List.length t <= 16 /\ 11 <= List.length evs <= 19) /\
  (forall w req r evs,
     Part006.handler nts tt w req = (Status200 r, evs) ->
     exists u t, url req = Some u /\
       evs = [EvResolve u; EvApiDetail (Part006.r_productId r);
              EvScrape ("https://www.aliexpress.com/item/" ++ Part006.r_productId r ++ ".html")]
             ++ offer_events t /\
       8 <= List.length t <= 16 /\ 11 <= List.length evs <= 19).
Proof.
  split; intros w req r evs H.
  - unfold RoutesTs.handler in H. destruct (validate req) eqn:Hv; [discriminate|].
    destruct (validated_url req Hv) as (u & Hu & Hts).
    rewrite Hu in H. unfold Js.or_default in H. rewrite Hts in H.
    unfold RoutesTs.resolveRedirects in H.
    cbv beta iota zeta in H.
    match type of H with context [if negb (Js.truthy ?p) then _ else _] =>
      destruct (negb (Js.truthy p)) end; [discriminate|].
    match type of H with context [Offers.generateAllOffers ?v ?o ?p ?t0] =>
      destruct (Offers.generateAllOffers v o p t0) as [items t] eqn:Eo end.
    injection H as <- <-. cbn [RoutesTs.r_productId].
    exists u, t. apply offers_calls in Eo.
    split; [exact Hu|]. split; [reflexivity|]. split; [exact Eo|].
    unfold offer_events. cbn [app List.length]. rewrite length_map. lia.
  - unfold Part006.handler in H. destruct (validate req) eqn:Hv; [discriminate|].
    destruct (validated_url req Hv) as (u & Hu & Hts).
    rewrite Hu in H. unfold Js.or_default in H. rewrite Hts in H.
    unfold Part006.resolveRedirects in H.
    cbv beta iota zeta in H.
    match type of H with context [if negb (Js.truthy ?p) then _ else _] =>
      destruct (negb (Js.truthy p)) end; [discriminate|].
    match type of H with context [Offers.generateAllOffers ?v ?o ?p ?t0] =>
      destruct (Offers.generateAllOffers v o p t0) as [items t] eqn:Eo end.
    injection H as <- <-. cbn [Part006.r_productId].
    exists u, t. apply offers_calls in Eo.
    split; [exact Hu|]. split; [reflexivity|]. split; [exact Eo|].
    unfold offer_events. cbn [app List.length]. rewrite length_map. lia.
Qed.

(** ** Product ids are digit strings *)

Local Open Scope string_scope.

Definition digit_id (x : string) : Prop :=
  x <> "" /\ ExtractProofs.all_chars is_digit x = true.

Lemma greedy_loop_range {A} min (k : string -> string -> option A) run rest n x :
  greedy_loop min k run rest n = Some x ->
  exists m, min <= m <= n /\ k (take m run) (drop m run ++ rest) = Some x.
Proof.
  induction n as [|n IH]; rewrite ExtractProofs.greedy_loop_eq.
  - destruct (Nat.leb_spec min 0) as [Hle|Hle]; [|discriminate].
    destruct (k (take 0 run) (drop 0 run ++ rest)) eqn:E; [|discriminate].
    intros [= <-]. exists 0. split; [lia|exact E].
  - destruct (Nat.leb_spec min (S n)) as [Hle|Hle].
    + destruct (k (take (S n) run) (drop (S n) run ++ rest)) eqn:E.
      * intros [= <-]. exists (S n). split; [lia|exact E].
      * intros H. destruct (IH H) as (m & Hm & Hk). exists m. split; [lia|exact Hk].
    + intros H. destruct (IH H) as (m & Hm & Hk). exists m. split; [lia|exact Hk].
Qed.

Lemma all_chars_take p n s :
  ExtractProofs.all_chars p s = true -> ExtractProofs.all_chars p (take n s) = true.
Proof.
  revert s; induction n as [|n IH]; intros [|c s]; simpl; auto.
  intros H. apply andb_true_iff in H as [Hc Hs]. rewrite Hc. simpl. auto.
Qed.

(** A greedy run of digits whose continuation returns the run read. *)
Lemma greedy_digits min max (k : string -> string -> option string) s x :
  1 <= min ->
  (forall d r y, k d r = Some y -> y = d) ->
  greedy is_digit min max k s = Some x ->
  digit_id x /\ min <= String.length x /\
  match max with Some mx => String.length x <= mx | None => True end.
Proof.
  intros Hmin Hk. unfold greedy.
  destruct (span is_digit s) as [run rest] eqn:Hs.
  destruct (ExtractProofs.span_spec _ _ _ _ Hs) as (_ & Hrun & _).
  intros H. apply greedy_loop_range in H as (m & Hm & Hkm).
  apply Hk in Hkm. subst x.
  assert (Hmr : m <= String.length run) by (destruct max; lia).
  rewrite ExtractProofs.length_take by exact Hmr.
  split; [split|split; [lia|destruct max; lia]].
  - intros E. pose proof (ExtractProofs.length_take m run Hmr) as L.
    rewrite E in L. simpl in L. lia.
  - now apply all_chars_take.
Qed.

Lemma digits_capture_id s x : digits_capture s = Some x -> digit_id x.
Proof.
  intros H. apply (greedy_digits 1 None (fun d _ => Some d) s x); [lia| |exact H].
  now intros d r y [= ->].
Qed.

Definition yields_ids (p : string -> option string) : Prop :=
  forall s x, p s = Some x -> digit_id x.

Lemma search_ids p : yields_ids p -> yields_ids (fun s => search (fun _ r => p r) s).
Proof.
  intros Hp s x H. apply ExtractProofs.search_some_inv in H as (pre & r & _ & Hr).
  exact (Hp _ _ Hr).
Qed.

Lemma first_match_ids pats s x :
  Forall yields_ids pats -> first_match pats s = Some x -> digit_id x.
Proof.
  induction 1 as [|p ps Hp Hps IH]; simpl; [discriminate|].
  destruct (search _ s) eqn:E.
  - intros [= <-]. exact (search_ids p Hp _ _ E).
  - exact IH.
Qed.

(** The optional-s productId group, followed by [=] and digits. *)
Lemma productId_tail_ids r1 x :
  (let eq_digits r2 := match strip_prefix "=" r2 with
                       | Some r3 => digits_capture r3 | None => None end in
   match (match strip_prefix "s" r1 with Some r2 => eq_digits r2 | None => None end) with
   | Some x => Some x
   | None => eq_digits r1
   end) = Some x -> digit_id x.
Proof.
  cbv zeta.
  assert (Heq : forall r y, match strip_prefix "=" r with
                            | Some r3 => digits_capture r3 | None => None end = Some y ->
                          digit_id y).
  { intros r y. destruct (strip_prefix "=" r); [apply digits_capture_id|discriminate]. }
  destruct (strip_prefix "s" r1) as [r2|]; [|apply Heq].
  destruct (match strip_prefix "=" r2 with Some r3 => digits_capture r3 | None => None end)
    as [y|] eqn:E; [intros [= <-]; exact (Heq _ _ E)|apply Heq].
Qed.

Lemma at_productIds_opt_ids : yields_ids at_productIds_opt.
Proof.
  intros [|c r] x; [discriminate|]. rewrite ExtractProofs.at_ids_opt_eq.
  destruct (q_or_amp c); [|discriminate].
  destruct (strip_prefix "productId" r) as [r1|]; [|discriminate].
  apply productId_tail_ids.
Qed.

Lemma at_amp_lit_digits_ids lit : yields_ids (at_amp_lit_digits lit).
Proof.
  intros [|c r] x; [discriminate|]. rewrite ExtractProofs.at_amp_eq.
  destruct (q_or_amp c); [|discriminate].
  destruct (strip_prefix lit r); [apply digits_capture_id|discriminate].
Qed.

Lemma at_lit_digits_ids lit : yields_ids (at_lit_digits lit).
Proof.
  intros s x. unfold at_lit_digits.
  destruct (strip_prefix lit s); [apply digits_capture_id|discriminate].
Qed.

Lemma at_item_html_ids : yields_ids at_item_html.
Proof.
  intros s x. unfold at_item_html. destruct (strip_prefix "/item/" s) as [r|]; [|discriminate].
  intros H. apply greedy_digits in H; [apply H|lia|].
  intros d rest y. destruct (strip_prefix "." rest); [|discriminate].
  destruct (_ || _); [now intros [= ->]|discriminate].
Qed.

Lemma at_item_end_ids : yields_ids at_item_end.
Proof.
  intros s x. unfold at_item_end. destruct (strip_prefix "/item/" s) as [r|]; [|discriminate].
  intros H. apply greedy_digits in H; [apply H|lia|].
  intros d rest y. destruct (_ || _); [now intros [= ->]|discriminate].
Qed.

Lemma at_p_index_ids k : yields_ids k -> yields_ids (at_p_index k).
Proof.
  intros Hk s x. unfold at_p_index. destruct (strip_prefix "/p/" s) as [r|]; [|discriminate].
  intros H. apply ExtractProofs.greedy_some in H as (d & r2 & _ & H).
  destruct (strip_prefix "/index.html" r2); [exact (Hk _ _ H)|discriminate].
Qed.

Lemma at_ssr_ids k : yields_ids k -> yields_ids (at_ssr k).
Proof.
  intros Hk s x. unfold at_ssr. destruct (strip_prefix "/ssr/" s) as [r|]; [|discriminate].
  intros H. apply ExtractProofs.lazy_dot_some in H as (pre & r2 & _ & H). exact (Hk _ _ H).
Qed.

Lemma at_html_query_ids : yields_ids at_html_query.
Proof.
  intros s x. unfold at_html_query. destruct (strip_prefix "/" s) as [r|]; [|discriminate].
  intros H. apply ExtractProofs.greedy_some in H as (d & r2 & _ & H).
  destruct (strip_prefix ".html?" r2) as [r3|]; [|discriminate].
  apply ExtractProofs.lazy_dot_some in H as (pre & r4 & _ & H).
  destruct (strip_prefix "productId" r4) as [r5|]; [|discriminate].
  exact (productId_tail_ids r5 x H).
Qed.

Lemma urlPatterns_ids : Forall yields_ids urlPatterns.
Proof.
  unfold urlPatterns.
  repeat apply Forall_cons; try apply Forall_nil.
  - apply at_productIds_opt_ids.
  - apply at_item_html_ids.
  - apply at_item_end_ids.
  - apply at_lit_digits_ids.
  - apply at_lit_digits_ids.
  - apply at_p_index_ids, at_productIds_opt_ids.
  - apply at_ssr_ids, (search_ids _ at_productIds_opt_ids).
  - apply at_html_query_ids.
Qed.

Lemma patterns_simple_ids : Forall yields_ids patterns_simple.
Proof.
  unfold patterns_simple.
  repeat apply Forall_cons; try apply Forall_nil.
  - apply at_amp_lit_digits_ids.
  - apply at_amp_lit_digits_ids.
  - apply at_item_html_ids.
  - apply at_item_end_ids.
  - apply at_lit_digits_ids.
  - apply at_lit_digits_ids.
  - apply at_p_index_ids, at_amp_lit_digits_ids.
  - apply at_ssr_ids, (search_ids _ (at_amp_lit_digits_ids "productIds=")).
  - apply at_html_query_ids.
Qed.

Lemma long_number_ids prev s x :
  at_long_number prev s = Some x -> digit_id x /\ 10 <= String.length x <= 20.
Proof.
  unfold at_long_number. destruct (boundary prev s); [|discriminate].
  intros H. apply greedy_digits in H as (Hd & Hl & Hu); [auto|lia|].
  intros d r y. destruct (boundary _ r); [now intros [= ->]|discriminate].
Qed.

Lemma search_long_number_ids prev s x :
  search_from at_long_number prev s = Some x -> digit_id x /\ 10 <= String.length x <= 20.
Proof.
  revert prev; induction s as [|c s IH]; intros prev; cbn [search_from].
  - destruct (at_long_number prev "") eqn:E; [|discriminate].
    intros [= <-]. exact (long_number_ids _ _ _ E).
  - destruct (at_long_number prev (String c s)) eqn:E; [|apply IH].
    intros [= <-]. exact (long_number_ids _ _ _ E).
Qed.

(** Both versions of extractProductId return either null or a non-empty
    string of decimal digits; the routes.ts fallback, taken when no URL
    pattern matches, returns a run of 10 to 20 digits. *)
Theorem extractProductId_digit_string v text id :
  extractProductId v text = Some id ->
  id <> "" /\ ExtractProofs.all_chars is_digit id = true /\
  (v = Rich -> first_match urlPatterns (targetUrl text) = None ->
   10 <= String.length id <= 20).
Proof.
  destruct v; cbn [extractProductId].
  - unfold extractProductId_rich.
    destruct (first_match urlPatterns (targetUrl text)) as [x|] eqn:E.
    + intros [= <-]. destruct (first_match_ids _ _ _ urlPatterns_ids E) as [H1 H2].
      split; [exact H1|split; [exact H2|discriminate]].
    + intros H. destruct (search_long_number_ids _ _ _ H) as [[H1 H2] H3]. auto.
  - unfold extractProductId_simple. intros H.
    destruct (first_match_ids _ _ _ patterns_simple_ids H) as [H1 H2].
    split; [exact H1|split; [exact H2|discriminate]].
Qed.

(** ** Scraped titles *)

Lemma trim_start_length s : String.length (trim_start s) <= String.length s.
Proof. induction s as [|c s IH]; simpl; [lia|]. destruct (js_space c); simpl; lia. Qed.

Lemma trim_end_length s : String.length (trim_end s) <= String.length s.
Proof.
  induction s as [|c s IH]; simpl; [lia|].
  destruct (js_space c && String.eqb (trim_end s) ""); simpl; lia.
Qed.

Lemma take_length_le n s : String.length (take n s) <= n.
Proof. revert s; induction n as [|n IH]; intros [|c s]; simpl; try lia. specialize (IH s); lia. Qed.

Lemma trim_length s : String.length (trim s) <= String.length s.
Proof. unfold trim. pose proof (trim_end_length (trim_start s)). pose proof (trim_start_length s). lia. Qed.

Lemma trim_start_head s :
  match trim_start s with String c _ => js_space c = false | EmptyString => True end.
Proof.
  induction s as [|c s IH]; simpl; [exact I|]. destruct (js_space c) eqn:E; [exact IH|exact E].
Qed.

Lemma trim_end_head s :
  match trim_end s with String c _ => exists r, s = String c r | EmptyString => True end.
Proof.
  destruct s as [|c s]; simpl; [exact I|].
  destruct (js_space c && String.eqb (trim_end s) ""); [exact I|eauto].
Qed.

Lemma trim_start_fix s :
  match s with String c _ => js_space c = false | EmptyString => True end -> trim_start s = s.
Proof. destruct s as [|c s]; simpl; [reflexivity|]. now intros ->. Qed.

Lemma trim_end_idem s : trim_end (trim_end s) = trim_end s.
Proof.
  induction s as [|c s IH]; simpl; [reflexivity|].
  destruct (js_space c && String.eqb (trim_end s) "") eqn:E; [reflexivity|].
  simpl. rewrite IH, E. reflexivity.
Qed.

(** [String.prototype.trim] is idempotent. *)
Lemma trim_idem s : trim (trim s) = trim s.
Proof.
  unfold trim. pose proof (trim_start_head s) as Hh.
  pose proof (trim_end_head (trim_start s)) as Hh'.
  rewrite (trim_start_fix (trim_end (trim_start s))).
  - apply trim_end_idem.
  - destruct (trim_end (trim_start s)) as [|c r]; [exact I|].
    destruct Hh' as [r' Hr']. rewrite Hr' in Hh. exact Hh.
Qed.

Lemma trim_take_ok n x :
  String.length (trim (take n x)) <= n /\ trim (trim (take n x)) = trim (take n x).
Proof.
  split; [|apply trim_idem].
  pose proof (trim_length (take n x)). pose proof (take_length_le n x). lia.
Qed.

Lemma rich_scrape_title page :
  exists t, s_title (RoutesTs.getProductDetails page) = JStr t /\
            String.length t <= 250 /\ trim t = t.
Proof.
  unfold RoutesTs.getProductDetails.
  destruct page as [pg|]; [destruct (RoutesTs.scrapePage pg) as [r|] eqn:H|];
    [| cbn; eexists; split; [reflexivity| split; [cbn; lia|reflexivity]]
     | cbn; eexists; split; [reflexivity| split; [cbn; lia|reflexivity]]].
  unfold RoutesTs.scrapePage in H.
  destruct (fold_left RoutesTs.runParamsStep (RoutesTs.runParams pg) (JStr "", JStr ""))
    as [title0 image0].
  HandlerProofs.bind_cases H. injection H as <-. cbn [s_title]. revert E.
  match goal with |- (if truthy ?t1 then _ else _) = Some ?t2 -> _ =>
    generalize t1; intros x; destruct (truthy x) eqn:T end.
  - destruct x; intros E; try discriminate E. injection E as <-.
    unfold js_or. destruct (truthy (JStr (RoutesTs.cleanTitle s)));
      [eexists; split; [reflexivity|unfold RoutesTs.cleanTitle; apply trim_take_ok]
      |eexists; split; [reflexivity| split; [cbn; lia|reflexivity]]].
  - intros E. injection E as <-. unfold js_or. rewrite T.
    eexists; split; [reflexivity| split; [cbn; lia|reflexivity]].
Qed.

Lemma simple_scrape_title tt body :
  exists t, s_title (Part006.getProductDetails tt body) = JStr t /\
            String.length t <= 255 /\ trim t = t.
Proof.
  unfold Part006.getProductDetails. destruct body as [html|].
  - cbv zeta. cbn [s_title].
    match goal with |- exists t, JStr (match ?o with Some _ => _ | None => _ end) = _ /\ _ =>
      destruct o as [t|] end;
      [destruct (Js.truthy_str t);
         [eexists; split; [reflexivity|apply trim_take_ok]|]|];
      eexists; (split; [reflexivity| split; [cbn; lia|reflexivity]]).
  - eexists; split; [reflexivity| split; [cbn; lia|reflexivity]].
Qed.

(** The title getProductDetails scrapes is always a string without
    leading or trailing white space, at most 250 characters long in
    routes.ts (the cleaned title is cut to 250 characters, the placeholder
    is "AliExpress Product") and at most 255 in part_006 (the title is cut
    to 255 characters, the placeholder is "Unable to extract title"). *)
Theorem scraped_title_trimmed_bounded tt :
  (forall page, exists t, s_title (RoutesTs.getProductDetails page) = JStr t /\
                          String.length t <= 250 /\ trim t = t) /\
  (forall body, exists t, s_title (Part006.getProductDetails tt body) = JStr t /\
                          String.length t <= 255 /\ trim t = t).
Proof. split; [exact rich_scrape_title | exact (simple_scrape_title tt)]. Qed.

(** ** The thumbnail suffix of an image URL *)

Lemma span_app cls a b :
  ExtractProofs.all_chars cls a = true ->
  match b with String c _ => cls c = false | EmptyString => True end ->
  span cls (a ++ b) = (a, b).
Proof.
  intros Ha Hb. induction a as [|c a IH]; simpl.
  - destruct b as [|c b]; [reflexivity|]. simpl in Hb. simpl. now rewrite Hb.
  - simpl in Ha. apply andb_true_iff in Ha as [Hc Ha]. rewrite Hc, (IH Ha). reflexivity.
Qed.

Lemma str_app_nil (s : string) : s ++ "" = s.
Proof. induction s; simpl; congruence. Qed.

(** A greedy run that reads the whole maximal run when the continuation
    accepts it there. *)
Lemma greedy_whole {A} cls (k : string -> string -> option A) a b x :
  a <> "" -> ExtractProofs.all_chars cls a = true ->
  match b with String c _ => cls c = false | EmptyString => True end ->
  k a b = Some x -> greedy cls 1 None k (a ++ b) = Some x.
Proof.
  intros Hne Ha Hb Hk. unfold greedy. rewrite (span_app _ _ _ Ha Hb).
  apply ExtractProofs.greedy_loop_top.
  - destruct a; [congruence|simpl; lia].
  - rewrite ExtractProofs.take_all, ExtractProofs.drop_all. exact Hk.
Qed.

Lemma at_thumbnail_other c s : c <> "_"%char -> RoutesTs.at_thumbnail (String c s) = None.
Proof.
  intros Hc. unfold RoutesTs.at_thumbnail. cbn [strip_prefix].
  destruct (Ascii.eqb_spec "_" c) as [<-|]; [congruence|reflexivity].
Qed.

Lemma replace_first_skip base r :
  ExtractProofs.all_chars (fun c => negb (Ascii.eqb c "_")) base = true ->
  replace_first RoutesTs.at_thumbnail (base ++ r) = base ++ replace_first RoutesTs.at_thumbnail r.
Proof.
  induction base as [|c base IH]; intros H; [reflexivity|].
  simpl in H. apply andb_true_iff in H as [Hc H].
  cbn [append replace_first]. rewrite at_thumbnail_other.
  - now rewrite IH.
  - intros ->. discriminate.
Qed.

Lemma is_digit_x : is_digit "x" = false.
Proof. reflexivity. Qed.

Lemma is_digit_dot : is_digit "." = false.
Proof. reflexivity. Qed.

Lemma span_no_terminator s :
  ExtractProofs.all_chars (fun c => negb (is_line_terminator c)) s = true ->
  snd (span (fun c => negb (is_line_terminator c)) s) = "".
Proof.
  intros H. rewrite <- (str_app_nil s). rewrite span_app; [reflexivity|exact H|exact I].
Qed.

(** routes.ts strips the resizing suffix of an image URL: for a URL
    [base ++ "_" ++ w ++ "x" ++ h ++ "." ++ ext ++ tail] with no "_" in
    [base], [w] and [h] non-empty runs of digits, [ext] one of jpg, png,
    webp and no line terminator in [tail], the replace of
    [/_\d+x\d+\.(jpg|png|webp).*/] by "" gives back [base]; a URL without
    any "_" is left unchanged. *)
Theorem thumbnail_suffix_removed base w h ext tail :
  ExtractProofs.all_chars (fun c => negb (Ascii.eqb c "_")) base = true ->
  w <> "" -> ExtractProofs.all_chars is_digit w = true ->
  h <> "" -> ExtractProofs.all_chars is_digit h = true ->
  In ext ["jpg"; "png"; "webp"] ->
  ExtractProofs.all_chars (fun c => negb (is_line_terminator c)) tail = true ->
  replace_first RoutesTs.at_thumbnail
    (base ++ "_" ++ w ++ "x" ++ h ++ "." ++ ext ++ tail) = base /\
  replace_first RoutesTs.at_thumbnail base = base.
Proof.
  intros Hb Hw Dw Hh Dh Hext Ht.
  split; [|rewrite <- (str_app_nil base) at 1; rewrite replace_first_skip by exact Hb;
           apply str_app_nil].
  rewrite replace_first_skip by exact Hb.
  rewrite <- (str_app_nil base) at 2. f_equal.
  assert (Hm : RoutesTs.at_thumbnail ("_" ++ w ++ "x" ++ h ++ "." ++ ext ++ tail) = Some "").
  { unfold RoutesTs.at_thumbnail. cbn [append strip_prefix Ascii.eqb Bool.eqb].
    apply greedy_whole; [exact Hw|exact Dw|exact is_digit_x|].
    cbn [append strip_prefix Ascii.eqb Bool.eqb].
    apply greedy_whole; [exact Hh|exact Dh|exact is_digit_dot|].
    cbn [append strip_prefix Ascii.eqb Bool.eqb].
    rewrite <- (span_no_terminator tail Ht).
    destruct Hext as [<-|[<-|[<-|[]]]]; reflexivity. }
  destruct ("_" ++ w ++ "x" ++ h ++ "." ++ ext ++ tail) eqn:E; [discriminate E|].
  cbn [replace_first]. rewrite Hm. reflexivity.
Qed.

(** ** The store link of the product-detail API *)

(** The first piece of [x.split(sep)]. *)
Definition hd_split (sep x : string) : string :=
  match String.index 0 sep x with Some i => take i x | None => x end.

(** [r] is empty or starts with one of [cs]. *)
Definition lead (cs : list ascii) (r : string) : Prop :=
  match r with EmptyString => True | String c _ => In c cs end.

Lemma index_cons sep c s :
  String.index 0 sep (String c s) =
  if String.prefix sep (String c s) then Some 0 else option_map S (String.index 0 sep s).
Proof.
  change (String.index 0 sep (String c s)) with
    (if String.prefix sep (String c s) then Some 0
     else match String.index 0 sep s with Some n => Some (S n) | None => None end).
  destruct (String.prefix sep (String c s)); [reflexivity|]. now destruct (String.index 0 sep s).
Qed.

Lemma str_length_app (a b : string) : String.length (a ++ b) = String.length a + String.length b.
Proof. induction a; simpl; auto. Qed.

Lemma drop_app k a b : k <= String.length a -> drop k (a ++ b) = drop k a ++ b.
Proof. revert a; induction k as [|k IH]; intros [|c a]; simpl; intros; auto; try lia. apply IH; lia. Qed.

Lemma drop_app_len a b : drop (String.length a) (a ++ b) = b.
Proof. induction a; simpl; auto. Qed.

Lemma take_app_len a b j : take (String.length a + j) (a ++ b) = a ++ take j b.
Proof. induction a as [|c a IH]; simpl; [reflexivity|]. now rewrite IH. Qed.

Lemma length_drop k s : String.length (drop k s) = String.length s - k.
Proof. revert s; induction k as [|k IH]; intros [|c s]; simpl; auto. Qed.

Lemma prefix_app_l sep w z :
  String.length sep <= String.length w -> String.prefix sep (w ++ z) = String.prefix sep w.
Proof.
  revert w; induction sep as [|x sep IH]; intros [|y w]; simpl; intros Hl; try lia; try reflexivity; try (destruct z; reflexivity).
  destruct (ascii_dec x y); [apply IH; lia|reflexivity].
Qed.

Lemma prefix_self sep z : String.prefix sep (sep ++ z) = true.
Proof.
  induction sep as [|c sep IH]; [destruct z; reflexivity|].
  simpl. destruct (ascii_dec c c); [exact IH|congruence].
Qed.

Lemma index_self sep z : sep <> "" -> String.index 0 sep (sep ++ z) = Some 0.
Proof.
  destruct sep as [|c sep]; [congruence|]. intros _.
  change (String c sep ++ z) with (String c (sep ++ z)). rewrite index_cons.
  change (String c (sep ++ z)) with (String c sep ++ z). now rewrite prefix_self.
Qed.

Lemma index_app sep a b :
  (forall k, k < String.length a -> String.prefix sep (drop k (a ++ b)) = false) ->
  String.index 0 sep (a ++ b) = option_map (Nat.add (String.length a)) (String.index 0 sep b).
Proof.
  induction a as [|c a IH]; intros H.
  - simpl. now destruct (String.index 0 sep b).
  - change (String c a ++ b) with (String c (a ++ b)). rewrite index_cons.
    rewrite (H 0 ltac:(simpl; lia) : String.prefix sep (String c (a ++ b)) = false).
    rewrite IH by (intros k Hk; apply (H (S k)); simpl; lia).
    now destruct (String.index 0 sep b).
Qed.

Lemma hd_split_app sep a b :
  (forall k, k < String.length a -> String.prefix sep (drop k (a ++ b)) = false) ->
  hd_split sep (a ++ b) = a ++ hd_split sep b.
Proof.
  intros H. unfold hd_split. rewrite (index_app _ _ _ H).
  destruct (String.index 0 sep b); [apply take_app_len|reflexivity].
Qed.

Lemma hd_split_empty sep : sep <> "" -> hd_split sep "" = "".
Proof. intros H. unfold hd_split. destruct sep; [congruence|reflexivity]. Qed.

Lemma hd_split_at sep b : String.prefix sep b = true -> hd_split sep b = "".
Proof.
  unfold hd_split. destruct b as [|c b].
  - destruct sep; [reflexivity|discriminate].
  - intros H. rewrite index_cons, H. reflexivity.
Qed.

Lemma hd_split_lead sep cs b : String.prefix sep b = false -> lead cs b -> lead cs (hd_split sep b).
Proof.
  unfold hd_split. destruct b as [|c b]; intros Hp Hl.
  - destruct (String.index 0 sep ""); [destruct n|]; exact I.
  - rewrite index_cons, Hp. destruct (String.index 0 sep b); exact Hl.
Qed.

Lemma split_fuel_head f sep y :
  sep <> "" -> (f <> 0 \/ y = "") -> nth_error (split_fuel f sep y) 0 = Some (hd_split sep y).
Proof.
  intros Hs [Hf| ->].
  - destruct f as [|f]; [congruence|]. unfold hd_split. cbn [split_fuel].
    destruct (String.index 0 sep y); reflexivity.
  - destruct f; cbn [split_fuel]; [now rewrite hd_split_empty|].
    unfold hd_split. destruct (String.index 0 sep ""); reflexivity.
Qed.

Lemma split_head sep x : sep <> "" -> nth_error (split sep x) 0 = Some (hd_split sep x).
Proof.
  intros Hs. unfold split. apply split_fuel_head; [exact Hs|].
  destruct x; [now right|left; discriminate].
Qed.

(** No occurrence of a one-character separator starts inside [a] when [a]
    does not contain that character. *)
Lemma no_char_prefix c a b k :
  ExtractProofs.all_chars (fun d => negb (Ascii.eqb d c)) a = true -> k < String.length a ->
  forall sep, String.prefix (String c sep) (drop k (a ++ b)) = false.
Proof.
  intros Ha Hk sep. rewrite drop_app by lia.
  destruct (ExtractProofs.drop_lt _ k a Ha Hk) as (d & r & -> & Hd).
  simpl. destruct (ascii_dec c d) as [<-|]; [|reflexivity].
  now rewrite Ascii.eqb_refl in Hd.
Qed.

Lemma includes_false_prefix s t k : Js.includes s t = false -> String.prefix t (drop k s) = false.
Proof.
  revert k; induction s as [|c s IH]; intros k H; unfold Js.includes in H; fold Js.includes in H;
    apply orb_false_iff in H as [H1 H2]; destruct k; simpl; auto.
Qed.

Definition no_char (c : ascii) (s : string) : bool :=
  ExtractProofs.all_chars (fun d => negb (Ascii.eqb d c)) s.

(** routes.ts rebuilds a shop URL [pre + "/store/" + id + rest] as
    [https://m.aliexpress.com/store/<id>?shopId=<id>]: when "/store/"
    occurs first right after [pre], [id] contains no "/" and no "?",
    and [rest] is empty or starts with "/" or "?", the store id is [id]. *)
Theorem storeLink_store_id pre id rest :
  Js.includes (pre ++ "/store") "/store/" = false ->
  no_char "/" id = true -> no_char "?" id = true ->
  lead ["/"; "?"]%char rest ->
  RoutesTs.storeLink (pre ++ "/store/" ++ id ++ rest) =
  Some ("https://m.aliexpress.com/store/" ++ id ++ "?shopId=" ++ id).
Proof.
  intros Hpre Hs Hq Hr. unfold RoutesTs.storeLink.
  set (s := pre ++ "/store/" ++ id ++ rest).
  assert (Hi : String.index 0 "/store/" s = Some (String.length pre)).
  { unfold s. rewrite index_app.
    - rewrite index_self by discriminate. cbn [option_map]. f_equal. lia.
    - intros k Hk.
      replace (pre ++ "/store/" ++ id ++ rest) with
        ((pre ++ "/store") ++ ("/" ++ id ++ rest)) by (rewrite <- ExtractProofs.str_app_assoc; reflexivity).
      rewrite drop_app by (rewrite str_length_app; lia).
      rewrite prefix_app_l by (rewrite length_drop, str_length_app; simpl; lia).
      now apply includes_false_prefix. }
  assert (H7 : 7 <= String.length s) by (unfold s; rewrite !str_length_app; simpl; lia).
  assert (Hlen : String.length s = S (String.length s - 1)) by lia.
  unfold split at 1. rewrite Hlen. cbn [split_fuel]. rewrite Hi. change (nth_error (_ :: ?l) 1) with (nth_error l 0).
  replace (drop (String.length pre + String.length "/store/") s) with (id ++ rest)
    by (unfold s; rewrite ExtractProofs.str_app_assoc, <- str_length_app, drop_app_len; reflexivity).
  rewrite split_fuel_head by (try discriminate; left; lia).
  rewrite hd_split_app by (intros k Hk; apply (no_char_prefix "/"); assumption).
  (* the piece after the id is empty or starts with "/" or "?" *)
  assert (H1 : lead ["/"; "?"]%char (hd_split "/store/" rest)).
  { destruct (String.prefix "/store/" rest) eqn:Ep.
    - now rewrite hd_split_at.
    - now apply hd_split_lead. }
  rewrite split_head by discriminate.
  rewrite hd_split_app by (intros k Hk; apply (no_char_prefix "/"); assumption).
  assert (H2 : lead ["?"]%char (hd_split "/" (hd_split "/store/" rest))).
  { destruct (hd_split "/store/" rest) as [|c r] eqn:E1.
    - rewrite hd_split_empty by discriminate. exact I.
    - destruct H1 as [<-|[<-|[]]].
      + rewrite hd_split_at; [exact I|destruct r; reflexivity].
      + apply hd_split_lead; [reflexivity|now left]. }
  rewrite split_head by discriminate.
  rewrite hd_split_app by (intros k Hk; apply (no_char_prefix "?"); assumption).
  replace (hd_split "?" (hd_split "/" (hd_split "/store/" rest))) with "".
  - now rewrite str_app_nil.
  - destruct (hd_split "/" (hd_split "/store/" rest)) as [|c r] eqn:E2.
    + now rewrite hd_split_empty.
    + destruct H2 as [<-|[]]. rewrite hd_split_at; [reflexivity|destruct r; reflexivity].
Qed.

(** ** Replies when the product-detail call fails *)

(** The product-detail call threw, or its answer carries a truthy
    [error_response]. *)
Definition api_fails (r : option jsval) : Prop :=
  r = None \/
  exists data err, r = Some data /\ get data "error_response" = Some err /\ truthy err = true.

Lemma api_fails_rich nts r : api_fails r -> RoutesTs.getProductDetailsFromApi nts r = None.
Proof.
  intros [->|(data & err & -> & Hg & Ht)]; [reflexivity|].
  unfold RoutesTs.getProductDetailsFromApi. cbn [Json.bind]. rewrite Hg. cbn [Json.bind].
  now rewrite Ht.
Qed.

Lemma api_fails_simple nts r : api_fails r -> Part006.getProductDetailsFromApi nts r = None.
Proof.
  intros [->|(data & err & -> & Hg & Ht)]; [reflexivity|].
  unfold Part006.getProductDetailsFromApi. cbn [Json.bind]. rewrite Hg. cbn [Json.bind].
  now rewrite Ht.
Qed.

(** When the product-detail call fails (it throws, or answers with an
    error_response), a 200 reply of either handler carries the initial
    placeholders of productData and the title and image of the scrape of
    the item page. *)
Theorem api_failure_defaults nts tt (wr : RoutesTs.world) (ws : Part006.world) :
  (forall pid, api_fails (RoutesTs.api_response wr pid)) ->
  (forall pid, api_fails (Part006.api_response ws pid)) ->
  (forall req r evs,
     RoutesTs.handler nts wr req = (Status200 r, evs) ->
     let sc := RoutesTs.getProductDetails (RoutesTs.item_page wr (RoutesTs.r_productId r)) in
     RoutesTs.r_title r = s_title sc /\ RoutesTs.r_imageUrl r = s_imageUrl sc /\
     RoutesTs.r_price r = JStr "N/A" /\ RoutesTs.r_originalPrice r = JStr "N/A" /\
     RoutesTs.r_discount r = JStr "0%" /\ RoutesTs.r_storeName r = JStr "Unknown Store" /\
     RoutesTs.r_evaluateRate r = JStr "N/A" /\ RoutesTs.r_shopUrl r = JStr "N/A" /\
     RoutesTs.r_categoryName r = JStr "N/A" /\ RoutesTs.r_commissionRate r = JStr "N/A" /\
     RoutesTs.r_orders r = JStr "N/A" /\ RoutesTs.r_shipping_fees r = JStr "Free Shipping") /\
  (forall req r evs,
     Part006.handler nts tt ws req = (Status200 r, evs) ->
     let sc := Part006.getProductDetails tt (Part006.item_page ws (Part006.r_productId r)) in
     Part006.r_title r = s_title sc /\ Part006.r_imageUrl r = s_imageUrl sc /\
     Part006.r_price r = JStr "N/A" /\ Part006.r_originalPrice r = JStr "N/A" /\
     Part006.r_discount r = JStr "0%" /\ Part006.r_storeName r = JStr "Unknown Store").
Proof.
  intros Hr Hs. split; intros req r evs H.
  - unfold RoutesTs.handler in H. destruct (validate req); [discriminate|].
    unfold RoutesTs.resolveRedirects in H.
    cbv beta iota zeta in H.
    match type of H with context [if negb (Js.truthy ?p) then _ else _] =>
      destruct (negb (Js.truthy p)) end; [discriminate|].
    match type of H with context [RoutesTs.getProductDetailsFromApi ?n ?x] =>
      rewrite (api_fails_rich n x (Hr _)) in H end.
    match type of H with context [Offers.generateAllOffers ?v ?o ?p ?t0] =>
      destruct (Offers.generateAllOffers v o p t0) as [items t] end.
    injection H as <- _. cbv zeta. cbn. repeat split.
  - unfold Part006.handler in H. destruct (validate req); [discriminate|].
    unfold Part006.resolveRedirects in H.
    cbv beta iota zeta in H.
    match type of H with context [if negb (Js.truthy ?p) then _ else _] =>
      destruct (negb (Js.truthy p)) end; [discriminate|].
    match type of H with context [Part006.getProductDetailsFromApi ?n ?x] =>
      rewrite (api_fails_simple n x (Hs _)) in H end.
    match type of H with context [Offers.generateAllOffers ?v ?o ?p ?t0] =>
      destruct (Offers.generateAllOffers v o p t0) as [items t] end.
    injection H as <- _. cbv zeta. cbn. repeat split.
Qed.

(** ** encodeURIComponent and decodeURIComponent *)

Lemma hex_val_digit k : k < 16 -> Uri.hex_val (Offers.hex_digit k) = Some k.
Proof. intros Hk. do 16 (destruct k as [|k]; [reflexivity|]). lia. Qed.

Lemma decode_pct n r :
  n < 256 ->
  Uri.decodeURIComponent (Offers.pct n ++ r) =
  match Uri.hex_val (Offers.hex_digit (n / 16)), Uri.hex_val (Offers.hex_digit (n mod 16)) with
  | Some a, Some b =>
      let b0 := 16 * a + b in
      if Nat.ltb b0 128 then option_map (String (ascii_of_nat b0)) (Uri.decodeURIComponent r)
      else if Nat.leb 192 b0 && Nat.ltb b0 224 then
        match r with
        | String p (String h3 (String h4 r2)) =>
            if Ascii.eqb p "%" then
              match Uri.hex_val h3, Uri.hex_val h4 with
              | Some c1, Some d1 =>
                  let b1 := 16 * c1 + d1 in
                  if Nat.leb 128 b1 && Nat.ltb b1 192 then
                    let cp := (b0 - 192) * 64 + (b1 - 128) in
                    if Nat.leb 128 cp && Nat.ltb cp 256
                    then option_map (String (ascii_of_nat cp)) (Uri.decodeURIComponent r2)
                    else None
                  else None
              | _, _ => None
              end
            else None
        | _ => None
        end
      else None
  | _, _ => None
  end.
Proof. intros _. reflexivity. Qed.

Lemma pct_split n : n < 256 -> 16 * (n / 16) + n mod 16 = n /\ n / 16 < 16 /\ n mod 16 < 16.
Proof.
  intros Hn. pose proof (Nat.div_mod n 16 ltac:(lia)). pose proof (Nat.mod_upper_bound n 16 ltac:(lia)).
  split; [lia|split; [apply Nat.Div0.div_lt_upper_bound; lia|exact H0]].
Qed.

Lemma div64_split n : n < 256 -> 128 <= n ->
  64 * (n / 64) + n mod 64 = n /\ 2 <= n / 64 < 4 /\ n mod 64 < 64.
Proof.
  intros Hn Hm. pose proof (Nat.div_mod n 64 ltac:(lia)). pose proof (Nat.mod_upper_bound n 64 ltac:(lia)).
  assert (n / 64 < 4) by (apply Nat.Div0.div_lt_upper_bound; lia).
  assert (2 <= n / 64) by (apply Nat.div_le_lower_bound; lia).
  lia.
Qed.

Lemma percent_not_unreserved : Offers.uri_unreserved "%" = false.
Proof. reflexivity. Qed.

Lemma hex_digit_hex k : is_hex (Offers.hex_digit k) = true.
Proof. do 16 (destruct k as [|k]; [reflexivity|]). reflexivity. Qed.

Definition uri_safe (c : ascii) : bool := Offers.uri_unreserved c || Ascii.eqb c "%" || is_hex c.

Lemma all_chars_app p a b :
  ExtractProofs.all_chars p (a ++ b) = ExtractProofs.all_chars p a && ExtractProofs.all_chars p b.
Proof. induction a as [|c a IH]; simpl; [reflexivity|]. rewrite IH. apply andb_assoc. Qed.

Lemma pct_safe n : ExtractProofs.all_chars uri_safe (Offers.pct n) = true.
Proof.
  unfold Offers.pct, uri_safe. cbn [ExtractProofs.all_chars].
  rewrite !hex_digit_hex, !orb_true_r. reflexivity.
Qed.

Lemma encode_decode s :
  Uri.decodeURIComponent (Offers.encodeURIComponent s) = Some s /\
  ExtractProofs.all_chars uri_safe (Offers.encodeURIComponent s) = true.
Proof.
  induction s as [|c s [IH IHs]]; [split; reflexivity|].
  cbn [Offers.encodeURIComponent]. cbv zeta.
  pose proof (Ascii.nat_ascii_bounded c) as Hc.
  pose proof (Ascii.ascii_nat_embedding c) as Hemb.
  set (n := nat_of_ascii c) in *.
  rewrite all_chars_app, IHs, andb_true_r.
  destruct (Offers.uri_unreserved c) eqn:Hu.
  - split.
    + cbn [append Uri.decodeURIComponent].
      destruct (Ascii.eqb_spec c "%") as [->|_]; [discriminate Hu|].
      rewrite IH. reflexivity.
    + cbn. unfold uri_safe. rewrite Hu. reflexivity.
  - destruct (Nat.ltb_spec n 128) as [Hlt|Hge].
    + split; [|apply pct_safe].
      destruct (pct_split n Hc) as (Hd & H1 & H2).
      rewrite decode_pct by exact Hc.
      rewrite (hex_val_digit _ H1), (hex_val_digit _ H2). cbv zeta. rewrite Hd.
      destruct (Nat.ltb_spec n 128); [|lia].
      rewrite IH. cbn [option_map]. rewrite Hemb. reflexivity.
    + split; [|rewrite all_chars_app, !pct_safe; reflexivity].
      destruct (div64_split n Hc Hge) as (Hdm & Hq & Hr).
      assert (Hb0 : 192 + n / 64 < 256) by lia.
      assert (Hb1 : 128 + n mod 64 < 256) by lia.
      rewrite <- ExtractProofs.str_app_assoc, decode_pct by exact Hb0.
      destruct (pct_split _ Hb0) as (Hd0 & H01 & H02).
      rewrite (hex_val_digit _ H01), (hex_val_digit _ H02). cbv zeta. rewrite Hd0.
      destruct (Nat.ltb_spec (192 + n / 64) 128); [lia|].
      replace (Nat.leb 192 (192 + n / 64) && Nat.ltb (192 + n / 64) 224) with true
        by (symmetry; apply andb_true_iff; split; [apply Nat.leb_le|apply Nat.ltb_lt]; lia).
      destruct (pct_split _ Hb1) as (Hd1 & H11 & H12).
      unfold Offers.pct at 1. cbn [append].
      rewrite Ascii.eqb_refl, (hex_val_digit _ H11), (hex_val_digit _ H12). cbv zeta.
      rewrite Hd1.
      replace (Nat.leb 128 (128 + n mod 64) && Nat.ltb (128 + n mod 64) 192) with true
        by (symmetry; apply andb_true_iff; split; [apply Nat.leb_le|apply Nat.ltb_lt]; lia).
      replace ((192 + n / 64 - 192) * 64 + (128 + n mod 64 - 128)) with n by lia.
      replace (Nat.leb 128 n && Nat.ltb n 256) with true
        by (symmetry; apply andb_true_iff; split; [apply Nat.leb_le|apply Nat.ltb_lt]; lia).
      rewrite IH. cbn [option_map]. rewrite Hemb. reflexivity.
Qed.

(** decodeURIComponent inverts encodeURIComponent on every string of
    8-bit code units, and the encoding consists of unreserved characters
    and [%XX] escapes only; so each share-redirect URL of part_006 carries
    its offer's target URL as one query value that decodes back to it. *)
Theorem encodeURIComponent_round_trip :
  (forall s, Uri.decodeURIComponent (Offers.encodeURIComponent s) = Some s /\
             ExtractProofs.all_chars uri_safe (Offers.encodeURIComponent s) = true) /\
  (forall pid,
     Forall2 (fun (p : string * string) sec =>
                exists e, sec = ("https://star.aliexpress.com/share/share.htm?redirectUrl=" ++ e) /\
                          Uri.decodeURIComponent e = Some (snd p) /\
                          ExtractProofs.all_chars uri_safe e = true)
             (Offers.offersPrimary pid) (Offers.offersSecondarySimple pid)).
Proof.
  split; [exact encode_decode|].
  intros pid. unfold Offers.offersSecondarySimple.
  induction (Offers.offersPrimary pid) as [|[nm u] ps IH]; cbn [map]; constructor; [|exact IH].
  exists (Offers.encodeURIComponent u). split; [reflexivity|]. apply encode_decode.
Qed.

(** ** The URL routes.ts resolves *)

Lemma url_step_char c r : url_char c = true -> url_step (String c r) = Some 1.
Proof. intros H. unfold url_step. now rewrite H. Qed.

Lemma url_step_none c r : url_char c = false -> url_step (String c r) = None.
Proof.
  intros H. unfold url_step. rewrite H.
  destruct (Ascii.eqb_spec c "%") as [->|Hc]; [discriminate H|].
  destruct r as [|h1 [|h2 r]]; reflexivity.
Qed.

(** The body of the URL pattern is the maximal run of URL characters. *)
Lemma url_body_span f r :
  String.length r <= f -> url_body f r = String.length (fst (span url_char r)).
Proof.
  revert r; induction f as [|f IH]; intros [|c r] Hl; [reflexivity|simpl in Hl; lia|reflexivity|].
  simpl in Hl. cbn [url_body span].
  destruct (url_char c) eqn:Hc.
  - rewrite url_step_char by exact Hc. cbn [drop].
    destruct (span url_char r) as [a b] eqn:Hs. cbn [fst String.length].
    rewrite IH by lia. rewrite Hs. reflexivity.
  - now rewrite url_step_none.
Qed.

Lemma at_url_some s k :
  at_url s = Some k ->
  exists sch r, In sch ["https://"; "http://"] /\ s = sch ++ r /\
    k = String.length sch + String.length (fst (span url_char r)) /\
    fst (span url_char r) <> "".
Proof.
  assert (Hk : forall sch r k, In sch ["https://"; "http://"] ->
            (let n := url_body (String.length r) r in
             if Nat.eqb n 0 then None else Some (String.length sch + n)) = Some k ->
            exists sch' r', In sch' ["https://"; "http://"] /\ sch ++ r = sch' ++ r' /\
              k = String.length sch' + String.length (fst (span url_char r')) /\
              fst (span url_char r') <> "").
  { intros sch r k0 Hsch. cbv zeta. rewrite url_body_span by lia.
    destruct (Nat.eqb_spec (String.length (fst (span url_char r))) 0) as [Z|NZ]; [discriminate|].
    intros [= <-]. exists sch, r. repeat split; auto.
    intros E. rewrite E in NZ. apply NZ. reflexivity. }
  unfold at_url.
  destruct (strip_prefix "https://" s) as [r|] eqn:E1.
  - apply ExtractProofs.strip_prefix_some in E1 as ->. intros H.
    apply (Hk "https://" r k); [simpl; tauto|exact H].
  - destruct (strip_prefix "http://" s) as [r|] eqn:E2; [|discriminate].
    apply ExtractProofs.strip_prefix_some in E2 as ->. intros H.
    apply (Hk "http://" r k); [simpl; tauto|exact H].
Qed.

Lemma take_len_app a b : take (String.length a) (a ++ b) = a.
Proof. induction a as [|c a IH]; simpl; [destruct b; reflexivity|]. now rewrite IH. Qed.

(** routes.ts sends its HEAD request to the first URL found in the text,
    or to the whole text when it contains none: that URL is a piece of the
    text, made of "https://" or "http://" and a non-empty maximal run of
    the pattern's URL characters; the reply's final URL is the fetched
    [response.url], or that URL when the fetch throws. *)
Theorem resolveRedirects_target fetch_head u :
  exists c,
    RoutesTs.resolveRedirects fetch_head u =
      (match fetch_head c with Some final => final | None => c end, [EvResolve c]) /\
    ((RoutesTs.first_url u = None /\ c = u) \/
     exists pre sch run post,
       u = pre ++ c ++ post /\ c = sch ++ run /\ In sch ["https://"; "http://"] /\
       run <> "" /\ ExtractProofs.all_chars url_char run = true /\
       match post with String d _ => url_char d = false | EmptyString => True end).
Proof.
  unfold RoutesTs.resolveRedirects.
  destruct (RoutesTs.first_url u) as [m|] eqn:E; [|eexists; split; [reflexivity|left; auto]].
  exists m. split; [reflexivity|right].
  unfold RoutesTs.first_url in E.
  apply ExtractProofs.search_some_inv in E as (pre & r & -> & Hr).
  destruct (at_url r) as [k|] eqn:Ha; [|discriminate]. injection Hr as <-.
  apply at_url_some in Ha as (sch & r' & Hsch & -> & -> & Hne).
  destruct (span url_char r') as [run post] eqn:Hs. cbn [fst] in Hne |- *.
  destruct (ExtractProofs.span_spec _ _ _ _ Hs) as (-> & Hrun & Hpost).
  replace (take (String.length sch + String.length run) (sch ++ run ++ post)) with (sch ++ run)
    by (rewrite <- str_length_app, ExtractProofs.str_app_assoc, take_len_app; reflexivity).
  exists pre, sch, run, post.
  split; [now rewrite <- ExtractProofs.str_app_assoc|]. auto.
Qed.

(** ** Protocol-relative image URLs *)

Lemma at_thumbnail_rest s r :
  RoutesTs.at_thumbnail s = Some r ->
  match r with String c _ => is_line_terminator c = true | EmptyString => True end.
Proof.
  unfold RoutesTs.at_thumbnail.
  destruct (strip_prefix "_" s) as [s1|]; [|discriminate].
  intros H. apply ExtractProofs.greedy_some in H as (d1 & r1 & _ & H).
  destruct (strip_prefix "x" r1) as [r2|]; [|discriminate].
  apply ExtractProofs.greedy_some in H as (d2 & r3 & _ & H).
  destruct (strip_prefix "." r3) as [r4|]; [|discriminate].
  cbv zeta in H.
  match type of H with (match ?e with Some _ => _ | None => None end) = _ =>
    destruct e as [r5|] end; [|discriminate].
  injection H as <-.
  destruct (span (fun c => negb (is_line_terminator c)) r5) as [a b] eqn:Hs. cbn [snd].
  destruct (ExtractProofs.span_spec _ _ _ _ Hs) as (_ & _ & Hb).
  destruct b as [|c b]; [exact I|]. now apply negb_false_iff.
Qed.

Lemma replace_first_shape (m : string -> option string) s :
  exists p x q, s = p ++ x /\ replace_first m s = p ++ q /\ (q = "" \/ m x = Some q).
Proof.
  induction s as [|c s (p & x & q & Hs & Hr & Hq)].
  - cbn. destruct (m "") as [q|] eqn:E; [exists "", "", q|exists "", "", ""]; auto.
  - cbn [replace_first]. destruct (m (String c s)) as [q'|] eqn:E.
    + exists "", (String c s), q'. auto.
    + exists (String c p), x, q. subst s. cbn. rewrite Hr. auto.
Qed.

Lemma prefix_cons a s1 b s2 :
  String.prefix (String a s1) (String b s2) =
  if ascii_dec a b then String.prefix s1 s2 else false.
Proof. reflexivity. Qed.

Lemma not_protocol_relative_prefix p x q :
  Js.startsWith (p ++ x) "//" = false ->
  match q with String c _ => is_line_terminator c = true | EmptyString => True end ->
  Js.startsWith (p ++ q) "//" = false.
Proof.
  unfold Js.startsWith. intros Hs Hq.
  destruct p as [|c1 [|c2 p]].
  - destruct q as [|c q]; [reflexivity|]. cbn [append]. rewrite prefix_cons.
    destruct (ascii_dec "/" c) as [<-|]; [discriminate Hq|reflexivity].
  - cbn [append]. rewrite prefix_cons. destruct (ascii_dec "/" c1); [|reflexivity].
    destruct q as [|c q]; [reflexivity|]. rewrite prefix_cons.
    destruct (ascii_dec "/" c) as [<-|]; [discriminate Hq|reflexivity].
  - cbn [append] in Hs |- *. rewrite !prefix_cons in Hs |- *.
    destruct (ascii_dec "/" c1); [|reflexivity].
    destruct (ascii_dec "/" c2); [|reflexivity].
    rewrite <- Hs. destruct (p ++ q), (p ++ x); reflexivity.
Qed.

Lemma clean_image_ok s :
  let s1 := if Js.startsWith s "//" then "https:" ++ s else s in
  Js.startsWith (replace_first RoutesTs.at_thumbnail s1) "//" = false.
Proof.
  cbv zeta.
  assert (H1 : Js.startsWith (if Js.startsWith s "//" then "https:" ++ s else s) "//" = false)
    by (destruct (Js.startsWith s "//") eqn:E; [reflexivity|exact E]).
  destruct (replace_first_shape RoutesTs.at_thumbnail
              (if Js.startsWith s "//" then "https:" ++ s else s)) as (p & x & q & Hs & -> & Hq).
  rewrite Hs in H1. apply (not_protocol_relative_prefix p x q H1).
  destruct Hq as [->|Hq]; [exact I|exact (at_thumbnail_rest _ _ Hq)].
Qed.

(** routes.ts never returns a protocol-relative image URL from the item
    page: the scraped imageUrl is null or a non-empty string that does not
    start with "//" (a leading "//" is completed with "https:" before the
    thumbnail suffix is removed). *)
Theorem scraped_image_not_protocol_relative page :
  s_imageUrl (RoutesTs.getProductDetails page) = JNull \/
  exists i, s_imageUrl (RoutesTs.getProductDetails page) = JStr i /\ i <> "" /\
            Js.startsWith i "//" = false.
Proof.
  unfold RoutesTs.getProductDetails.
  destruct page as [pg|]; [destruct (RoutesTs.scrapePage pg) as [r|] eqn:H|];
    [| now left | now left].
  unfold RoutesTs.scrapePage in H.
  destruct (fold_left RoutesTs.runParamsStep (RoutesTs.runParams pg) (JStr "", JStr ""))
    as [title0 image0].
  HandlerProofs.bind_cases H. injection H as <-. cbn [s_imageUrl]. revert E0.
  match goal with |- (if truthy ?t1 then _ else _) = Some _ -> _ =>
    generalize t1; intros x; destruct (truthy x) eqn:T end.
  - destruct x; intros E0; try discriminate E0. injection E0 as <-.
    unfold js_or.
    match goal with |- context [if truthy ?t then _ else _] => destruct (truthy t) eqn:T2 end;
      [right|now left].
    eexists; split; [reflexivity|]. split; [now apply HandlerProofs.truthy_jstr|].
    exact (clean_image_ok s).
  - intros E0. injection E0 as <-. unfold js_or. rewrite T. now left.
Qed.

(** ** The URL extractProductId reads *)

Lemma url_match_shape s k :
  at_url s = Some k ->
  exists sch run post, s = (sch ++ run) ++ post /\ take k s = sch ++ run /\
    In sch ["https://"; "http://"] /\ run <> "".
Proof.
  intros Ha. apply at_url_some in Ha as (sch & r & Hsch & -> & -> & Hne).
  destruct (span url_char r) as [run post] eqn:Hs. cbn [fst] in Hne |- *.
  destruct (ExtractProofs.span_spec _ _ _ _ Hs) as (-> & _ & _).
  exists sch, run, post. split; [apply ExtractProofs.str_app_assoc|].
  split; [|auto].
  rewrite <- str_length_app, ExtractProofs.str_app_assoc. apply take_len_app.
Qed.

Lemma match_all_urls_pieces f s x :
  In x (match_all_urls f s) ->
  exists pre post, s = pre ++ x ++ post /\
    exists sch run, x = sch ++ run /\ In sch ["https://"; "http://"] /\ run <> "".
Proof.
  revert s; induction f as [|f IH]; intros s Hin; [destruct Hin|].
  destruct s as [|c s']; [destruct Hin|]. cbn [match_all_urls] in Hin.
  destruct (at_url (String c s')) as [n|] eqn:Ha.
  - destruct Hin as [<- | Hin].
    + destruct (url_match_shape _ _ Ha) as (sch & run & post & Hs & Ht & Hsch & Hne).
      exists "", post. rewrite Ht. split; [exact Hs|]. eauto.
    + destruct (IH _ Hin) as (pre & post & Hd & Hx).
      exists (take n (String c s') ++ pre), post. split; [|exact Hx].
      rewrite <- ExtractProofs.str_app_assoc, <- Hd. symmetry. apply ExtractProofs.take_drop.
  - destruct (IH _ Hin) as (pre & post & Hd & Hx).
    exists (String c pre), post. split; [|exact Hx]. rewrite Hd. reflexivity.
Qed.

(** routes.ts extractProductId reads the product id from the whole text,
    or from a piece of the text that the URL pattern matched: "https://"
    or "http://" and a non-empty run, on an AliExpress or alix.live domain. *)
Theorem targetUrl_in_text text :
  Extract.targetUrl text = text \/
  exists pre c post,
    Extract.targetUrl text = c /\ text = pre ++ c ++ post /\
    Extract.is_aliexpress c = true /\
    exists sch run, c = sch ++ run /\ In sch ["https://"; "http://"] /\ run <> "".
Proof.
  unfold Extract.targetUrl, Js.or_default.
  destruct (find Extract.is_aliexpress (match_all_urls (String.length text) text))
    as [x|] eqn:E; [|now left].
  destruct (Js.truthy_str x); [right|now left].
  apply find_some in E as [Hin Hal].
  destruct (match_all_urls_pieces _ _ _ Hin) as (pre & post & Ht & Hx).
  exists pre, x, post. auto.
Qed.

(** ** The request signature *)

(** An upper-case hexadecimal digit. *)
Definition upper_hex (c : ascii) : bool := is_digit c || in_range 65 70 c.

Lemma upper_hex_lower n : upper_hex (Signature.upper_char (Signature.hex_lower n)) = true.
Proof.
  do 16 (destruct n as [|n]; [reflexivity|]). reflexivity.
Qed.

Lemma toUpperCase_hex d :
  String.length (Signature.toUpperCase (Signature.hex d)) = 2 * length d /\
  ExtractProofs.all_chars upper_hex (Signature.toUpperCase (Signature.hex d)) = true.
Proof.
  induction d as [|b d [IHl IHc]]; [split; reflexivity|].
  cbn [Signature.hex Signature.toUpperCase String.length ExtractProofs.all_chars length].
  rewrite IHl, IHc, !upper_hex_lower. split; [lia|reflexivity].
Qed.

(** generateApiSignature returns the HMAC-SHA256 digest as upper-case
    hexadecimal: with a 32-byte digest, 64 characters from 0-9 and A-F,
    whatever the parameters and the secret. *)
Theorem generateApiSignature_upper_hex hmac p secret :
  (forall key msg, length (hmac key msg) = 32) ->
  String.length (Signature.generateApiSignature hmac p secret) = 64 /\
  ExtractProofs.all_chars upper_hex (Signature.generateApiSignature hmac p secret) = true.
Proof.
  intros H32. unfold Signature.generateApiSignature.
  destruct (toUpperCase_hex (hmac secret
    (String.concat "" (map (fun key => key ++ Signature.index p key)
                          (Signature.sort (map fst p)))))) as [Hl Hc].
  rewrite Hl, H32. auto.
Qed.

(** ** The sign of the computed discount *)












(** ** Quoted captures of the part_006 scrape *)

(** A character other than the double quote. *)
Definition no_quote (c : ascii) : bool := negb (Ascii.eqb c (ascii_of_nat 34)).

Lemma at_lit_quoted_capture lit s x :
  at_lit_quoted lit s = Some x -> x <> "" /\ ExtractProofs.all_chars no_quote x = true.
Proof.
  unfold at_lit_quoted. destruct (strip_prefix lit s) as [r|]; [|discriminate].
  unfold greedy. destruct (span _ r) as [run rest] eqn:Hs.
  destruct (ExtractProofs.span_spec _ _ _ _ Hs) as (_ & Hrun & _).
  intros H. apply greedy_loop_range in H as (m & Hm & Hk).
  destruct (String.prefix dquote _); [|discriminate]. injection Hk as <-.
  split; [|exact (all_chars_take _ _ _ Hrun)].
  intros He. assert (Hl := ExtractProofs.length_take m run ltac:(lia)).
  rewrite He in Hl. cbn in Hl. lia.
Qed.

Lemma quotedMatch_capture lit html x :
  Part006.quotedMatch lit html = Some x ->
  x <> "" /\ ExtractProofs.all_chars no_quote x = true.
Proof.
  unfold Part006.quotedMatch. intros H.
  apply ExtractProofs.search_some_inv in H as (pre & r & _ & H).
  exact (at_lit_quoted_capture _ _ _ H).
Qed.

(** part_006 getProductDetails returns an imageUrl that is null or a
    non-empty string without a double quote: both image regexes capture a
    non-empty run of characters other than the double quote, and the
    https: prefix it may add has no quote either. *)
Theorem simple_scraped_image_quote_free tt body :
  s_imageUrl (Part006.getProductDetails tt body) = JNull \/
  exists i, s_imageUrl (Part006.getProductDetails tt body) = JStr i /\ i <> "" /\
            ExtractProofs.all_chars no_quote i = true.
Proof.
  unfold Part006.getProductDetails. destruct body as [html|]; [|now left].
  cbn [s_imageUrl].
  destruct (Part006.quotedMatch Part006.ogImageKey html) as [og|] eqn:Eog;
  destruct (Part006.quotedMatch Part006.imagePathKey html) as [cap|] eqn:Ecap;
  cbn [Js.truthy].
  - destruct (Js.startsWith cap "http");
    destruct (quotedMatch_capture _ _ _ Ecap) as [Hne Hq].
    + destruct cap as [|c cap]; [contradiction|]. right. eexists; split; [reflexivity|]. auto.
    + right. eexists; split; [reflexivity|]. split; [discriminate|].
      rewrite all_chars_app, Hq. reflexivity.
  - right. destruct (quotedMatch_capture _ _ _ Eog) as [Hne Hq]. eexists; split; [reflexivity|]. auto.
  - destruct (Js.startsWith cap "http");
    destruct (quotedMatch_capture _ _ _ Ecap) as [Hne Hq].
    + destruct cap as [|c cap]; [contradiction|]. right. eexists; split; [reflexivity|]. auto.
    + right. eexists; split; [reflexivity|]. split; [discriminate|].
      rewrite all_chars_app, Hq. reflexivity.
  - now left.
Qed.

(** ** Witnesses *)

Lemma extractProductId_digit_string_witness :
  extractProductId Rich "see 1234567890" = Some "1234567890" /\
  ("1234567890" <> "" /\ ExtractProofs.all_chars is_digit "1234567890" = true /\
   (Rich = Rich -> first_match urlPatterns (targetUrl "see 1234567890") = None ->
    10 <= String.length "1234567890" <= 20)).
Proof.
  split; [vm_compute; reflexivity|].
  apply (extractProductId_digit_string Rich "see 1234567890" "1234567890").
  vm_compute; reflexivity.
Defined.

Lemma thumbnail_suffix_removed_witness :
  replace_first RoutesTs.at_thumbnail
    ("https://ae01.alicdn.com/kf/S1a2b3c" ++ "_" ++ "220" ++ "x" ++ "220" ++ "." ++ "jpg" ++ "_.webp")
    = "https://ae01.alicdn.com/kf/S1a2b3c" /\
  replace_first RoutesTs.at_thumbnail "https://ae01.alicdn.com/kf/S1a2b3c"
    = "https://ae01.alicdn.com/kf/S1a2b3c".
Proof.
  apply (thumbnail_suffix_removed "https://ae01.alicdn.com/kf/S1a2b3c" "220" "220" "jpg" "_.webp");
    first [reflexivity | discriminate | simpl; tauto].
Defined.

Lemma storeLink_store_id_witness :
  RoutesTs.storeLink ("https://www.aliexpress.com" ++ "/store/" ++ "1102345678" ++ "?spm=a2g0o")
  = Some ("https://m.aliexpress.com/store/" ++ "1102345678" ++ "?shopId=" ++ "1102345678").
Proof.
  apply (storeLink_store_id "https://www.aliexpress.com" "1102345678" "?spm=a2g0o");
    first [reflexivity | simpl; tauto].
Defined.

Lemma api_failure_defaults_witness :
  match fst (RoutesTs.handler Spec.nts0 Spec.world_rich_offline Spec.itemRequest) with
  | Status200 r => RoutesTs.r_price r = JStr "N/A" /\
                   RoutesTs.r_title r = JStr "AliExpress Product"
  | _ => False
  end.
Proof.
  destruct (api_failure_defaults Spec.nts0 Spec.tt0 Spec.world_rich_offline
              Spec.world_blank_subject (fun _ => or_introl eq_refl) (fun _ => or_introl eq_refl))
    as [H1 _].
  destruct (RoutesTs.handler Spec.nts0 Spec.world_rich_offline Spec.itemRequest)
    as [rep evs] eqn:E.
  destruct rep as [m|m|r]; [vm_compute in E; discriminate E|vm_compute in E; discriminate E|].
  destruct (H1 _ _ _ E) as (Ht & _ & Hp & _). cbn [fst]. split; [exact Hp|].
  rewrite Ht. vm_compute in E. injection E as <- _. reflexivity.
Defined.

Lemma generateApiSignature_upper_hex_witness :
  (forall key msg, length ((fun (_ _ : string) => repeat Byte.x2a 32) key msg) = 32) /\
  String.length (Signature.generateApiSignature (fun _ _ => repeat Byte.x2a 32)
                   [("app_key", "1"); ("method", "m")] "s") = 64.
Proof.
  split; [intros; reflexivity|].
  apply (generateApiSignature_upper_hex (fun _ _ => repeat Byte.x2a 32)). intros; reflexivity.
Defined.


End ExtraProofs.
